(** * ad-watchdog: scripts/scan_and_report.py

    A shallow embedding of the wrapper that runs the external hunting tool
    over per-host event-log directories, decides per host whether anything
    was detected, and mails a summary.

    Python [str] values are lists of Unicode code points.  Everything the
    script obtains from the operating system (clock, directory listings, file
    contents, subprocess behaviour) is supplied by a record of answers, so the
    functions below are executable and total. *)

From Stdlib Require Import List NArith Bool String Ascii Arith Lia.
From Stdlib Require Import Permutation Sorted.
Import ListNotations.

Local Open Scope list_scope.

(** ** Python strings *)

Module Str.

Definition pystr := list N.

(** UTF-8 decoding of well-formed input, used for the literals only. *)
Fixpoint utf8_decode (bs : list N) : pystr :=
  match bs with
  | [] => []
  | b :: t =>
      if N.ltb b 0x80 then b :: utf8_decode t
      else if N.ltb b 0xe0 then
        match t with
        | c1 :: t' => ((b - 0xc0) * 64 + (c1 - 0x80))%N :: utf8_decode t'
        | _ => []
        end
      else if N.ltb b 0xf0 then
        match t with
        | c1 :: c2 :: t' =>
            ((b - 0xe0) * 4096 + (c1 - 0x80) * 64 + (c2 - 0x80))%N
            :: utf8_decode t'
        | _ => []
        end
      else
        match t with
        | c1 :: c2 :: c3 :: t' =>
            ((b - 0xf0) * 262144 + (c1 - 0x80) * 4096
             + (c2 - 0x80) * 64 + (c3 - 0x80))%N :: utf8_decode t'
        | _ => []
        end
  end.

(** A string literal of the source, as code points. *)
Definition py (s : string) : pystr :=
  utf8_decode (map (fun a => N.of_nat (nat_of_ascii a)) (list_ascii_of_string s)).

(** [bool(s)]: the empty string is falsy. *)
Definition truthy (s : pystr) : bool :=
  match s with [] => false | _ :: _ => true end.

(** [a or b] on strings. *)
Definition or_else (a b : pystr) : pystr := if truthy a then a else b.

Fixpoint eqb (a b : pystr) : bool :=
  match a, b with
  | [], [] => true
  | x :: a', y :: b' => N.eqb x y && eqb a' b'
  | _, _ => false
  end.

(** Lexicographic order on code points, the order of [str.__lt__]. *)
Fixpoint leb (a b : pystr) : bool :=
  match a, b with
  | [], _ => true
  | _ :: _, [] => false
  | x :: a', y :: b' =>
      if N.ltb x y then true else if N.ltb y x then false else leb a' b'
  end.

Fixpoint startswith (p s : pystr) : bool :=
  match p, s with
  | [], _ => true
  | _ :: _, [] => false
  | x :: p', y :: s' => N.eqb x y && startswith p' s'
  end.

Definition endswith (p s : pystr) : bool := startswith (rev p) (rev s).

(** [needle in hay]. *)
Fixpoint contains (needle hay : pystr) : bool :=
  startswith needle hay ||
  match hay with
  | [] => false
  | _ :: hay' => contains needle hay'
  end.

(** [sep.join(parts)]. *)
Fixpoint join (sep : pystr) (parts : list pystr) : pystr :=
  match parts with
  | [] => []
  | [p] => p
  | p :: rest => p ++ sep ++ join sep rest
  end.

(** [s.rfind(c)] for a single character; [None] stands for -1. *)
Fixpoint rfind (c : N) (s : pystr) : option nat :=
  match s with
  | [] => None
  | x :: t =>
      match rfind c t with
      | Some i => Some (S i)
      | None => if N.eqb x c then Some 0 else None
      end
  end.

(** [s.rstrip(c)] for a single character. *)
Definition rstrip_char (c : N) (s : pystr) : pystr :=
  rev ((fix drop (l : pystr) : pystr :=
          match l with
          | x :: t => if N.eqb x c then drop t else l
          | [] => []
          end) (rev s)).

(** ASCII part of [str.lower].  Code points above 127 are left alone; the
    source only compares the lowered suffix with the ASCII literal ".evtx",
    and no code point outside ASCII lowers to one of its letters. *)
Definition lower_char (c : N) : N :=
  if (N.leb 65 c && N.leb c 90)%bool then (c + 32)%N else c.

Definition lower (s : pystr) : pystr := map lower_char s.

(** [str.isspace] on one code point (Unicode White_Space plus the four
    information separators, as CPython has it). *)
Definition isspace (c : N) : bool :=
  ((N.leb 0x09 c && N.leb c 0x0d) || (N.leb 0x1c c && N.leb c 0x20)
   || N.eqb c 0x85 || N.eqb c 0xa0 || N.eqb c 0x1680
   || (N.leb 0x2000 c && N.leb c 0x200a)
   || N.eqb c 0x2028 || N.eqb c 0x2029 || N.eqb c 0x202f
   || N.eqb c 0x205f || N.eqb c 0x3000)%bool.

Fixpoint lstrip (s : pystr) : pystr :=
  match s with
  | c :: t => if isspace c then lstrip t else s
  | [] => []
  end.

(** [s.strip()]. *)
Definition strip (s : pystr) : pystr := rev (lstrip (rev (lstrip s))).

(** Line boundaries of [str.splitlines], other than the pair CR LF. *)
Definition is_linebreak (c : N) : bool :=
  (N.eqb c 0x0a || N.eqb c 0x0d || N.eqb c 0x0b || N.eqb c 0x0c
   || N.eqb c 0x1c || N.eqb c 0x1d || N.eqb c 0x1e || N.eqb c 0x85
   || N.eqb c 0x2028 || N.eqb c 0x2029)%bool.

(** [s.splitlines()]: [cur] holds the current line reversed. *)
Fixpoint splitlines_from (cur s : pystr) : list pystr :=
  match s with
  | [] => match cur with [] => [] | _ => [rev cur] end
  | c :: t =>
      if N.eqb c 0x0d then
        match t with
        | c' :: t' =>
            if N.eqb c' 0x0a then rev cur :: splitlines_from [] t'
            else rev cur :: splitlines_from [] t
        | [] => [rev cur]
        end
      else if is_linebreak c then rev cur :: splitlines_from [] t
      else splitlines_from (c :: cur) t
  end.

Definition splitlines (s : pystr) : list pystr := splitlines_from [] s.

(** [str(n)] for a natural number. *)
Fixpoint of_uint (u : Decimal.uint) : pystr :=
  match u with
  | Decimal.Nil => []
  | Decimal.D0 u => 48%N :: of_uint u
  | Decimal.D1 u => 49%N :: of_uint u
  | Decimal.D2 u => 50%N :: of_uint u
  | Decimal.D3 u => 51%N :: of_uint u
  | Decimal.D4 u => 52%N :: of_uint u
  | Decimal.D5 u => 53%N :: of_uint u
  | Decimal.D6 u => 54%N :: of_uint u
  | Decimal.D7 u => 55%N :: of_uint u
  | Decimal.D8 u => 56%N :: of_uint u
  | Decimal.D9 u => 57%N :: of_uint u
  end.

Definition of_nat (n : nat) : pystr := of_uint (Nat.to_uint n).

End Str.

Import Str.

(** ** Paths *)

(** [os.path.basename]: what follows the last slash. *)
Definition basename (p : pystr) : pystr :=
  match rfind 47%N p with
  | Some i => skipn (S i) p
  | None => p
  end.

(** [os.path.join(a, b)] of posixpath. *)
Definition path_join (a b : pystr) : pystr :=
  if startswith (py "/") b then b
  else if (negb (truthy a) || endswith (py "/") a)%bool then a ++ b
  else a ++ py "/" ++ b.

(** [PurePath.suffix] of the final component [name]:
    [i = name.rfind('.')]; [name[i:]] when [0 < i < len(name) - 1], the empty
    string otherwise. *)
Definition suffix_of_name (name : pystr) : pystr :=
  match rfind 46%N name with
  | Some i =>
      if (Nat.ltb 0 i && Nat.ltb i (List.length name - 1))%bool
      then skipn i name else []
  | None => []
  end.

Definition suffix (p : pystr) : pystr := suffix_of_name (basename p).

(** ** Configuration: the module-level settings read from the environment *)

Record Config := {
  EVTX_ROOT : pystr;
  REPORTS_DIR : pystr;
  CHAINS_MODE : pystr;
  CHAINS_FORMAT : pystr;
  CHAINS_LEVELS : list pystr;
  SIGMA_DIR : pystr;
  MAPPING_YML : pystr;
  CHAINS_RULE_DIR : pystr;
  QUIET : bool;
  LOCAL_TIME : bool;
  TIMEZONE : pystr;
  FROM : pystr;
  TO : pystr;
  EXTENSIONS : list pystr;
  SMTP_HOST : pystr;
  MAIL_FROM : pystr;
  MAIL_TO : list pystr;
  MAIL_SUBJECT_PREFIX : pystr
}.

(** ** Command builder *)

(** [build_hunt_cmd_for_file]: the list [cmd] grows by [append] and
    [extend]; each step below is one statement of the source. *)
Definition build_hunt_cmd_for_file (cfg : Config)
    (evtx_file output_dir rules_dir : pystr) (force_non_quiet : bool)
    : list pystr :=
  let cmd := [py "chainsaw"; py "hunt";
              py "--mapping"; MAPPING_YML cfg;
              py "--output"; output_dir;
              py "--sigma"; SIGMA_DIR cfg] in
  let cmd :=
    if eqb (CHAINS_FORMAT cfg) (py "csv") then cmd ++ [py "--csv"]
    else if eqb (CHAINS_FORMAT cfg) (py "json") then cmd ++ [py "--json"]
    else if eqb (CHAINS_FORMAT cfg) (py "log") then cmd ++ [py "--log"]
    else cmd ++ [py "--csv"] in
  let cmd :=
    fold_left (fun c lv => c ++ [py "--level"; lv]) (CHAINS_LEVELS cfg) cmd in
  let cmd :=
    if LOCAL_TIME cfg then cmd ++ [py "--local"]
    else if truthy (TIMEZONE cfg) then cmd ++ [py "--timezone"; TIMEZONE cfg]
    else cmd in
  let cmd := cmd ++ [py "-r"; rules_dir] in
  let cmd := if truthy (FROM cfg) then cmd ++ [py "--from"; FROM cfg] else cmd in
  let cmd := if truthy (TO cfg) then cmd ++ [py "--to"; TO cfg] else cmd in
  let effective_quiet := (QUIET cfg && negb force_non_quiet)%bool in
  let cmd := if effective_quiet then cmd ++ [py "-q"] else cmd in
  cmd ++ [evtx_file].

(** ** Effects

    A computation threads the trace of effects performed so far and either
    returns a value or raises. *)

Inductive exn :=
| Exception (msg : pystr)
| SystemExit (code : nat).

Inductive outcome (A : Type) :=
| Ret (a : A)
| Raise (e : exn).
Arguments Ret {A} a.
Arguments Raise {A} e.

Inductive event :=
| EMakedirs (path : pystr)
| EMkdtemp (path : pystr)
| EOpen (path : pystr)
| EWrite (text : pystr)              (* lf.write(text) *)
| ERun (argv : list pystr)           (* a SCANNER process was started *)
| EChildOut (text : pystr)           (* what that process wrote to the log *)
| EGlob (dir pattern : pystr)
| ERead (path : pystr)               (* Path(path).read_text(...) *)
| EPrint (text : pystr)
| EPrintErr (text : pystr)
| ERmtree (path : pystr) (removed : bool)
| ESendMail (subject body : pystr)   (* send_mail(subject, body) entered *)
| ESmtp (subject body : pystr).      (* server.sendmail(...) done *)

Definition trace := list event.

Definition M (A : Type) := trace -> trace * outcome A.

Definition ret {A} (a : A) : M A := fun tr => (tr, Ret a).

Definition bind {A B} (m : M A) (k : A -> M B) : M B :=
  fun tr =>
    match m tr with
    | (tr', Ret a) => k a tr'
    | (tr', Raise e) => (tr', Raise e)
    end.

Definition raise {A} (e : exn) : M A := fun tr => (tr, Raise e).

Definition emit (ev : event) : M unit := fun tr => (tr ++ [ev], Ret tt).

Definition get_trace : M trace := fun tr => (tr, Ret tr).

(** An answer of the environment to one call: the value, or a failure, which
    the library call raises as an [Exception] (OSError and the like). *)
Inductive answer (A : Type) :=
| Ok (a : A)
| Fails (msg : pystr).
Arguments Ok {A} a.
Arguments Fails {A} msg.

Definition lift {A} (o : answer A) : M A :=
  fun tr =>
    match o with
    | Ok a => (tr, Ret a)
    | Fails msg => (tr, Raise (Exception msg))
    end.

(** [try: m  except Exception as e: h e].  [SystemExit] is not an
    [Exception] and passes through. *)
Definition try_except {A} (m : M A) (h : pystr -> M A) : M A :=
  fun tr =>
    match m tr with
    | (tr', Raise (Exception msg)) => h msg tr'
    | r => r
    end.

(** [try: m  finally: c]. *)
Definition try_finally {A} (m : M A) (c : M unit) : M A :=
  fun tr =>
    match m tr with
    | (tr', r) =>
        match c tr' with
        | (tr'', Ret _) => (tr'', r)
        | (tr'', Raise e) => (tr'', Raise e)
        end
    end.

Declare Scope monad_scope.
Delimit Scope monad_scope with monad.
Notation "x <- m ;; k" := (bind m (fun x => k))
  (at level 61, m at next level, right associativity) : monad_scope.
Notation "m ;; k" := (bind m (fun _ => k))
  (at level 61, right associativity) : monad_scope.
Local Open Scope monad_scope.

Definition print (text : pystr) : M unit := emit (EPrint text).
Definition print_err (text : pystr) : M unit := emit (EPrintErr text).

(** ** The environment of one host run *)

(** One path yielded by [Path(host_dir).rglob("*")]. *)
Record Entry := {
  e_path : pystr;          (* str(p) *)
  e_is_file : bool;        (* p.is_file() *)
  e_resolved : pystr       (* str(p.resolve()) *)
}.

(** One name in the output directory at the time of the detection check,
    with what [read_text(encoding="utf-8", errors="ignore")] gives for it. *)
Record Artifact := {
  a_name : pystr;
  a_read : answer pystr
}.

Record HostWorld := {
  now_stamp : pystr;                      (* datetime.now().strftime("%Y%m%d%H%M%S") *)
  now_iso : pystr;                        (* datetime.now().isoformat() *)
  makedirs_out : answer unit;            (* os.makedirs(out_dir, exist_ok=True) *)
  rglob_out : answer (list Entry);       (* the traversal of host_dir, in its order *)
  mkdtemp_out : answer pystr;            (* tempfile.mkdtemp(prefix="chainsaw_rules_") *)
  open_log_out : answer unit;            (* open(log_path, "w", ...) *)
  run_out : nat -> list pystr -> answer pystr;
                                          (* subprocess.run of the i-th file: raises
                                             (executable missing) or runs and prints *)
  listdir_out : answer (list Artifact);  (* the entries of out_dir *)
  log_read_out : answer unit;            (* whether the log can be read back *)
  temp_isdir : bool;                      (* os.path.isdir(temp_rules_dir) at exit *)
  rmtree_ok : bool                        (* whether shutil.rmtree succeeds *)
}.

(** The per-host result dictionary. *)
Record ScanResult := {
  host : pystr;
  report_path : option pystr;
  log_path : option pystr;
  detected : bool
}.

(** ** Host runner *)

(** The comprehension of lines 136-137: traversal order is kept, the suffix
    is compared with the literal ".evtx", [EXTENSIONS] is not read. *)
Definition evtx_filter (entries : list Entry) : list pystr :=
  map e_resolved
    (filter (fun p => e_is_file p && eqb (lower (suffix (e_path p))) (py ".evtx"))
            entries).

Definition enumerate (w : HostWorld) : M (list pystr) :=
  entries <- lift (rglob_out w) ;;
  ret (evtx_filter entries).

Definition makedirs (w : HostWorld) (path : pystr) : M unit :=
  lift (makedirs_out w) ;; emit (EMakedirs path).

Definition mkdtemp (w : HostWorld) : M pystr :=
  d <- lift (mkdtemp_out w) ;; emit (EMkdtemp d) ;; ret d.

Definition open_log (w : HostWorld) (path : pystr) : M unit :=
  lift (open_log_out w) ;; emit (EOpen path).

Definition write (text : pystr) : M unit := emit (EWrite text).

(** [subprocess.run(cmd, ..., check=False)]: the exit status is ignored; the
    call raises only when the process cannot be started.  With
    [stdout=lf, stderr=lf] the output lands in the log, with
    [capture_output=True] it is dropped. *)
Definition subprocess_run (w : HostWorld) (i : nat) (cmd : list pystr)
    (to_log : bool) : M unit :=
  out <- lift (run_out w i cmd) ;;
  emit (ERun cmd) ;;
  if to_log then emit (EChildOut out) else ret tt.

(** The text of the log file: what the wrapper wrote and what the processes
    printed, in program order.  (On a real system the wrapper's buffered
    writes can reach the file after the output of a child; the results below
    that speak about the text of the log hold for whatever text is read back,
    and the ones about a host without archives involve no child at all.) *)
Fixpoint log_content (tr : trace) : pystr :=
  match tr with
  | [] => []
  | EWrite t :: tr' => t ++ log_content tr'
  | EChildOut t :: tr' => t ++ log_content tr'
  | _ :: tr' => log_content tr'
  end.

(** Text-mode reading translates CR LF and CR to LF. *)
Fixpoint universal_newlines (s : pystr) : pystr :=
  match s with
  | [] => []
  | c :: t =>
      if N.eqb c 0x0d then
        match t with
        | c' :: t' =>
            if N.eqb c' 0x0a then 0x0a%N :: universal_newlines t'
            else 0x0a%N :: universal_newlines t
        | [] => [0x0a%N]
        end
      else c :: universal_newlines t
  end.

Definition read_log (w : HostWorld) (path : pystr) : M pystr :=
  emit (ERead path) ;;
  lift (log_read_out w) ;;
  tr <- get_trace ;;
  ret (universal_newlines (log_content tr)).

Definition read_artifact (path : pystr) (a : Artifact) : M pystr :=
  emit (ERead path) ;; lift (a_read a).

(** [sorted(...)]: a stable insertion sort by name. *)
Fixpoint insert_by_name (a : Artifact) (l : list Artifact) : list Artifact :=
  match l with
  | [] => [a]
  | b :: l' =>
      if leb (a_name b) (a_name a) then b :: insert_by_name a l'
      else a :: l
  end.

Definition sorted (l : list Artifact) : list Artifact :=
  fold_left (fun acc a => insert_by_name a acc) l [].

(** [sorted(Path(out_dir).glob("*" + ext))]: the entries of the output
    directory whose name ends with [ext], by name.  [str(cf)] for such an
    entry is the output directory joined with the name. *)
Definition sorted_glob (w : HostWorld) (out_dir ext : pystr)
    : M (list Artifact) :=
  arts <- lift (listdir_out w) ;;
  emit (EGlob out_dir (py "*" ++ ext)) ;;
  ret (sorted (filter (fun a => endswith ext (a_name a)) arts)).

(** [rows = [ln for ln in text.splitlines() if ln.strip()]]. *)
Definition rows (text : pystr) : list pystr :=
  filter (fun ln => truthy (strip ln)) (splitlines text).

(** The csv loop of lines 180-189 (and 230-239): the pair is
    [(detected, report_path)]; an artifact that cannot be read is skipped. *)
Fixpoint scan_csv (out_dir : pystr) (files : list Artifact)
    : M (bool * option pystr) :=
  match files with
  | [] => ret (false, None)
  | cf :: rest =>
      let path := path_join out_dir (a_name cf) in
      hit <- try_except
               (text <- read_artifact path cf ;;
                ret (Nat.ltb 1 (List.length (rows text))))
               (fun _ => ret false) ;;
      if hit : bool then ret (true, Some path) else scan_csv out_dir rest
  end.

(** The json loop of lines 191-198 (and 241-248). *)
Fixpoint scan_json (out_dir : pystr) (files : list Artifact)
    : M (bool * option pystr) :=
  match files with
  | [] => ret (false, None)
  | jf :: rest =>
      let path := path_join out_dir (a_name jf) in
      hit <- try_except
               (text <- read_artifact path jf ;;
                ret (truthy (strip text)))
               (fun _ => ret false) ;;
      if hit : bool then ret (true, Some path) else scan_json out_dir rest
  end.

(** [report_path or default]. *)
Definition path_or (rp : option pystr) (default : pystr) : pystr :=
  match rp with
  | Some p => or_else p default
  | None => default
  end.

Definition status_of (d : bool) : pystr :=
  if d then py "DETECTED" else py "CLEAN".

Definition nl : pystr := [0x0a%N].

Fixpoint write_all (texts : list pystr) : M unit :=
  match texts with
  | [] => ret tt
  | t :: rest => write t ;; write_all rest
  end.

(** The loop of lines 169-172; [i] counts the invocations. *)
Fixpoint run_files_verbose (cfg : Config) (w : HostWorld)
    (out_dir rules_dir : pystr) (i : nat) (files : list pystr) : M unit :=
  match files with
  | [] => ret tt
  | f :: rest =>
      let cmd := build_hunt_cmd_for_file cfg f out_dir rules_dir true in
      write (py "# cmd: " ++ join (py " ") cmd ++ nl) ;;
      subprocess_run w i cmd true ;;
      run_files_verbose cfg w out_dir rules_dir (S i) rest
  end.

(** The loop of lines 224-226. *)
Fixpoint run_files_quiet (cfg : Config) (w : HostWorld)
    (out_dir rules_dir : pystr) (i : nat) (files : list pystr) : M unit :=
  match files with
  | [] => ret tt
  | f :: rest =>
      let cmd := build_hunt_cmd_for_file cfg f out_dir rules_dir false in
      subprocess_run w i cmd false ;;
      run_files_quiet cfg w out_dir rules_dir (S i) rest
  end.

(** The header block of lines 151-163. *)
Definition write_header (cfg : Config) (w : HostWorld)
    (host_dir out_dir rules_dir : pystr) (evtx_files : list pystr) : M unit :=
  write (py "# started: " ++ now_iso w ++ nl) ;;
  write (py "# host_dir: " ++ host_dir ++ nl) ;;
  write (py "# levels: " ++
         (match CHAINS_LEVELS cfg with
          | [] => py "ALL"
          | _ => join (py ",") (CHAINS_LEVELS cfg)
          end) ++ nl) ;;
  write (py "# mode: " ++ CHAINS_MODE cfg ++ py ", format: " ++
         CHAINS_FORMAT cfg ++ nl) ;;
  write (py "# output_dir: " ++ out_dir ++ nl) ;;
  write (py "# rules_dir: " ++ rules_dir ++ nl) ;;
  write (py "# target files:" ++ nl) ;;
  match evtx_files with
  | [] => write (py "#   (none found)" ++ nl)
  | _ => write_all (map (fun f => py "#   " ++ f ++ nl) evtx_files)
  end ;;
  write (py "# target count: " ++ of_nat (List.length evtx_files) ++ nl ++ nl).

(** The log-format check of lines 201-205. *)
Definition detect_log (w : HostWorld) (log_path : pystr)
    : M (bool * option pystr) :=
  d <- try_except
         (content <- read_log w log_path ;;
          ret (contains (py "DETECTED") content
               || contains (py "Matches:") content))
         (fun _ => ret false) ;;
  ret (d, None).

(** The body of the [try] of [run_for_host], lines 147-260. *)
Definition run_body (cfg : Config) (w : HostWorld)
    (host_dir host_name out_dir logp rules_dir : pystr)
    (evtx_files : list pystr) : M ScanResult :=
  if negb (QUIET cfg) then
    open_log w logp ;;
    write_header cfg w host_dir out_dir rules_dir evtx_files ;;
    match evtx_files with
    | [] => write (py "# skipped: no .evtx found" ++ nl)
    | _ => run_files_verbose cfg w out_dir rules_dir 0 evtx_files
    end ;;
    dr <- (if eqb (CHAINS_FORMAT cfg) (py "csv") then
             files <- sorted_glob w out_dir (py ".csv") ;;
             scan_csv out_dir files
           else if eqb (CHAINS_FORMAT cfg) (py "json") then
             files <- sorted_glob w out_dir (py ".json") ;;
             scan_json out_dir files
           else detect_log w logp) ;;
    print (py "[" ++ status_of (fst dr) ++ py "] " ++ host_name ++ py " -> " ++
           path_or (snd dr) (py "(no report file)") ++
           py " (log: " ++ logp ++ py ")") ;;
    ret {| host := host_name; report_path := snd dr;
           log_path := Some logp; detected := fst dr |}
  else
    match evtx_files with
    | [] => ret tt
    | _ => run_files_quiet cfg w out_dir rules_dir 0 evtx_files
    end ;;
    dr <- (if eqb (CHAINS_FORMAT cfg) (py "csv") then
             files <- sorted_glob w out_dir (py ".csv") ;;
             scan_csv out_dir files
           else if eqb (CHAINS_FORMAT cfg) (py "json") then
             files <- sorted_glob w out_dir (py ".json") ;;
             scan_json out_dir files
           else ret (false, None)) ;;
    print (py "[" ++ status_of (fst dr) ++ py "] " ++ host_name ++ py " -> " ++
           path_or (snd dr) (py "(no report file)")) ;;
    ret {| host := host_name; report_path := snd dr;
           log_path := if QUIET cfg then None else Some logp;
           detected := fst dr |}.

(** The [except Exception as e] handler, lines 262-269. *)
Definition on_exception (cfg : Config) (host_name logp : pystr)
    (msg : pystr) : M ScanResult :=
  print_err (py "[ERROR] " ++ host_name ++ py ": " ++ msg) ;;
  ret {| host := host_name; report_path := None;
         log_path := if QUIET cfg then None else Some logp;
         detected := false |}.

(** The [finally] clause, lines 270-273; [ignore_errors=True] lets a failed
    removal pass silently. *)
Definition cleanup (w : HostWorld) (temp_rules_dir : option pystr) : M unit :=
  match temp_rules_dir with
  | Some d =>
      if (truthy d && temp_isdir w)%bool
      then emit (ERmtree d (rmtree_ok w)) else ret tt
  | None => ret tt
  end.

Definition host_of (host_dir : pystr) : pystr :=
  basename (rstrip_char 47%N host_dir).

Definition out_dir_of (cfg : Config) (w : HostWorld) (host_dir : pystr) : pystr :=
  path_join (REPORTS_DIR cfg) (host_of host_dir ++ py "-" ++ now_stamp w).

Definition log_path_of (cfg : Config) (w : HostWorld) (host_dir : pystr) : pystr :=
  path_join (out_dir_of cfg w host_dir)
            (host_of host_dir ++ py "-" ++ now_stamp w ++ py ".log").

(** Lines 140-144: the rules directory and, when none is configured, the
    temporary one. *)
Definition resolve_rules (cfg : Config) (w : HostWorld)
    : M (option pystr * pystr) :=
  if negb (truthy (CHAINS_RULE_DIR cfg)) then
    d <- mkdtemp w ;; ret (Some d, d)
  else ret (None, CHAINS_RULE_DIR cfg).

(** The [try ... except ... finally] statement, lines 146-273. *)
Definition run_guarded (cfg : Config) (w : HostWorld) (host_dir : pystr)
    (evtx_files : list pystr) (rd : option pystr * pystr) : M ScanResult :=
  try_finally
    (try_except
       (run_body cfg w host_dir (host_of host_dir) (out_dir_of cfg w host_dir)
          (log_path_of cfg w host_dir) (snd rd) evtx_files)
       (on_exception cfg (host_of host_dir) (log_path_of cfg w host_dir)))
    (cleanup w (fst rd)).

(** Lines 127-144 run before the [try]. *)
Definition run_for_host (cfg : Config) (w : HostWorld) (host_dir : pystr)
    : M ScanResult :=
  makedirs w (out_dir_of cfg w host_dir) ;;
  evtx_files <- enumerate w ;;
  rd <- resolve_rules cfg w ;;
  run_guarded cfg w host_dir evtx_files rd.

(** ** Notifier *)

(** [send_mail]: without server, sender or recipients only a warning is
    printed; otherwise one message is handed to the SMTP server, and a
    transport failure propagates. *)
Definition send_mail (cfg : Config) (smtp_out : answer unit)
    (subject body : pystr) : M unit :=
  emit (ESendMail subject body) ;;
  if negb (truthy (SMTP_HOST cfg) && truthy (MAIL_FROM cfg)
           && match MAIL_TO cfg with [] => false | _ => true end) then
    print_err (py "[WARN] SMTP/MAIL の設定が不十分のためメールは送信されません。")
  else
    lift smtp_out ;; emit (ESmtp subject body).

(** ** Orchestrator *)

Record MainWorld := {
  listdir_root : list (pystr * bool);   (* os.listdir(EVTX_ROOT), with isdir *)
  as_completed : list pystr -> list pystr;
                                        (* the order in which the futures finish *)
  host_world : pystr -> HostWorld;
  smtp_answer : answer unit
}.

Definition die {A} (msg : pystr) : M A :=
  print_err (py "[ERROR] " ++ msg) ;; raise (SystemExit 1).

(** [res.get('report_path')] inside an f-string. *)
Definition repr_path (rp : option pystr) : pystr :=
  match rp with Some p => p | None => py "None" end.

(** What [fut.result()] gives for one host: the worker ran [run_for_host]
    on its own; its result, or the exception that escaped it. *)
Definition future_result (cfg : Config) (mw : MainWorld) (hd : pystr)
    : outcome ScanResult :=
  snd (run_for_host cfg (host_world mw hd) hd []).

(** The loop of lines 315-319. *)
Fixpoint collect (cfg : Config) (mw : MainWorld) (futures : list pystr)
    (results : list ScanResult) : M (list ScanResult) :=
  match futures with
  | [] => ret results
  | hd :: rest =>
      res <- (fun tr => (tr, future_result cfg mw hd)) ;;
      print (py "[" ++ status_of (detected res) ++ py "] " ++ host res ++
             py " -> " ++ repr_path (report_path res)) ;;
      collect cfg mw rest (results ++ [res])
  end.

Definition host_line (r : ScanResult) : pystr :=
  py "- " ++ host r ++ py ": " ++ path_or (report_path r) (py "(report not found)").

(** Lines 324-331: the lines before the per-host ones. *)
Definition summary_head (cfg : Config) : list pystr :=
  [py "Chainsaw 検出結果サマリ";
   py "対象モード: " ++ CHAINS_MODE cfg ++ py ", フォーマット: " ++ CHAINS_FORMAT cfg]
  ++ match CHAINS_LEVELS cfg with
     | [] => []
     | _ => [py "レベルフィルタ: " ++ join (py ",") (CHAINS_LEVELS cfg)]
     end
  ++ (if (truthy (FROM cfg) || truthy (TO cfg))%bool
      then [py "期間: " ++ or_else (FROM cfg) (py "-") ++ py " ～ " ++
            or_else (TO cfg) (py "-")]
      else [])
  ++ [[]].

Definition subject_of (cfg : Config) (detected_hosts : list ScanResult) : pystr :=
  MAIL_SUBJECT_PREFIX cfg ++ py " " ++ of_nat (List.length detected_hosts) ++
  py " host(s) detected".

Definition body_of (cfg : Config) (detected_hosts : list ScanResult) : pystr :=
  join nl (summary_head cfg ++ map host_line detected_hosts).

(** Lines 322-339. *)
Definition notify (cfg : Config) (mw : MainWorld) (results : list ScanResult)
    : M unit :=
  let detected_hosts := filter detected results in
  match detected_hosts with
  | [] => print (py "[INFO] 検出はありませんでした。メールは送信されません。")
  | _ =>
      send_mail cfg (smtp_answer mw)
                (subject_of cfg detected_hosts) (body_of cfg detected_hosts)
  end.

Definition host_dirs_of (cfg : Config) (mw : MainWorld) : list pystr :=
  map (fun d => path_join (EVTX_ROOT cfg) (fst d))
      (filter (fun d => snd d) (listdir_root mw)).

Definition main (cfg : Config) (mw : MainWorld) : M unit :=
  let host_dirs := host_dirs_of cfg mw in
  match host_dirs with
  | [] => die (py "ホストディレクトリが見つかりません: " ++ EVTX_ROOT cfg ++ py "/*")
  | _ =>
      results <- collect cfg mw (as_completed mw host_dirs) [] ;;
      notify cfg mw results
  end.

(** ** Sample inputs *)

Module Sample.

Definition cfg : Config := {|
  EVTX_ROOT := py "/workspace/evtx";
  REPORTS_DIR := py "/workspace/reports";
  CHAINS_MODE := py "hunt";
  CHAINS_FORMAT := py "csv";
  CHAINS_LEVELS := [];
  SIGMA_DIR := py "/sigma";
  MAPPING_YML := py "/map.yml";
  CHAINS_RULE_DIR := [];
  QUIET := true;
  LOCAL_TIME := true;
  TIMEZONE := [];
  FROM := [];
  TO := [];
  EXTENSIONS := [py ".evtx"];
  SMTP_HOST := py "mail";
  MAIL_FROM := py "a@x";
  MAIL_TO := [py "b@x"];
  MAIL_SUBJECT_PREFIX := py "[Chainsaw Detection]"
|}.

Definition world : HostWorld := {|
  now_stamp := py "20240101000000";
  now_iso := py "2024-01-01T00:00:00";
  makedirs_out := Ok tt;
  rglob_out := Ok [];
  mkdtemp_out := Ok (py "/tmp/chainsaw_rules_x");
  open_log_out := Ok tt;
  run_out := fun _ _ => Ok [];
  listdir_out := Ok [];
  log_read_out := Ok tt;
  temp_isdir := true;
  rmtree_ok := true
|}.

(** The traversal of the host directory fails. *)
Definition world_enum_fails : HostWorld := {|
  now_stamp := py "20240101000000";
  now_iso := py "2024-01-01T00:00:00";
  makedirs_out := Ok tt;
  rglob_out := Fails (py "[Errno 5] Input/output error");
  mkdtemp_out := Ok (py "/tmp/chainsaw_rules_x");
  open_log_out := Ok tt;
  run_out := fun _ _ => Ok [];
  listdir_out := Ok [];
  log_read_out := Ok tt;
  temp_isdir := true;
  rmtree_ok := true
|}.

(** One archive; the output directory holds a csv that cannot be read and
    one with a header and a data row. *)
Definition world_two_csv : HostWorld := {|
  now_stamp := py "20240101000000";
  now_iso := py "2024-01-01T00:00:00";
  makedirs_out := Ok tt;
  rglob_out := Ok [ {| e_path := py "/workspace/evtx/HOST-A/Security.evtx";
                       e_is_file := true;
                       e_resolved := py "/workspace/evtx/HOST-A/Security.evtx" |} ];
  mkdtemp_out := Ok (py "/tmp/chainsaw_rules_x");
  open_log_out := Ok tt;
  run_out := fun _ _ => Ok [];
  listdir_out :=
    Ok [ {| a_name := py "b.csv";
            a_read := Ok (py "timestamp,detections" ++ nl ++ py "2024,rule" ++ nl) |};
         {| a_name := py "a.csv";
            a_read := Fails (py "[Errno 13] Permission denied") |} ];
  log_read_out := Ok tt;
  temp_isdir := true;
  rmtree_ok := false
|}.

(** The SCANNER executable is missing: the first process cannot start. *)
Definition world_no_scanner : HostWorld := {|
  now_stamp := py "20240101000000";
  now_iso := py "2024-01-01T00:00:00";
  makedirs_out := Ok tt;
  rglob_out := Ok [ {| e_path := py "/workspace/evtx/HOST-A/Security.evtx";
                       e_is_file := true;
                       e_resolved := py "/workspace/evtx/HOST-A/Security.evtx" |} ];
  mkdtemp_out := Ok (py "/tmp/chainsaw_rules_x");
  open_log_out := Ok tt;
  run_out := fun _ _ => Fails (py "[Errno 2] No such file or directory: 'chainsaw'");
  listdir_out := Ok [];
  log_read_out := Ok tt;
  temp_isdir := true;
  rmtree_ok := true
|}.

Definition host_a : pystr := py "/workspace/evtx/HOST-A".

Definition host_b : pystr := py "/workspace/evtx/HOST-B".


(** Verbose mode with the log format. *)
Definition cfg_log : Config := {|
  EVTX_ROOT := py "/workspace/evtx";
  REPORTS_DIR := py "/workspace/reports";
  CHAINS_MODE := py "hunt";
  CHAINS_FORMAT := py "log";
  CHAINS_LEVELS := [py "high"; py "critical"];
  SIGMA_DIR := py "/sigma";
  MAPPING_YML := py "/map.yml";
  CHAINS_RULE_DIR := py "/rules";
  QUIET := false;
  LOCAL_TIME := false;
  TIMEZONE := py "Asia/Tokyo";
  FROM := [];
  TO := [];
  EXTENSIONS := [py ".evtx"];
  SMTP_HOST := py "mail";
  MAIL_FROM := py "a@x";
  MAIL_TO := [py "b@x"];
  MAIL_SUBJECT_PREFIX := py "[Chainsaw Detection]"
|}.

(** One archive; the SCANNER prints a line with "Matches:". *)
Definition world_log_hit : HostWorld := {|
  now_stamp := py "20240101000000";
  now_iso := py "2024-01-01T00:00:00";
  makedirs_out := Ok tt;
  rglob_out := Ok [ {| e_path := py "/workspace/evtx/HOST-A/Security.evtx";
                       e_is_file := true;
                       e_resolved := py "/workspace/evtx/HOST-A/Security.evtx" |} ];
  mkdtemp_out := Ok (py "/tmp/chainsaw_rules_x");
  open_log_out := Ok tt;
  run_out := fun _ _ => Ok (py "[+] Matches: 3" ++ nl);
  listdir_out := Ok [];
  log_read_out := Ok tt;
  temp_isdir := true;
  rmtree_ok := true
|}.





(** Two hosts; the traversal of the first one fails. *)
Definition mw_enum_fails : MainWorld := {|
  listdir_root := [(py "HOST-A", true); (py "HOST-B", true); (py "notes.txt", false)];
  as_completed := fun l => l;
  host_world := fun hd => if eqb hd host_a then world_enum_fails else world;
  smtp_answer := Ok tt
|}.

(** Two hosts; the SCANNER is missing for the first, the second has a csv
    with a data row; the second finishes first. *)
Definition mw_two_hosts : MainWorld := {|
  listdir_root := [(py "HOST-A", true); (py "HOST-B", true); (py "notes.txt", false)];
  as_completed := fun l => rev l;
  host_world := fun hd => if eqb hd host_a then world_no_scanner else world_two_csv;
  smtp_answer := Ok tt
|}.

End Sample.

(** ** The parts of the argument vector *)

Definition head_args (cfg : Config) (output_dir : pystr) : list pystr :=
  [py "chainsaw"; py "hunt"; py "--mapping"; MAPPING_YML cfg;
   py "--output"; output_dir; py "--sigma"; SIGMA_DIR cfg].

Definition format_args (cfg : Config) : list pystr :=
  if eqb (CHAINS_FORMAT cfg) (py "json") then [py "--json"]
  else if eqb (CHAINS_FORMAT cfg) (py "log") then [py "--log"]
  else [py "--csv"].

Definition level_args (cfg : Config) : list pystr :=
  flat_map (fun lv => [py "--level"; lv]) (CHAINS_LEVELS cfg).

Definition time_args (cfg : Config) : list pystr :=
  if LOCAL_TIME cfg then [py "--local"]
  else if truthy (TIMEZONE cfg) then [py "--timezone"; TIMEZONE cfg]
  else [].

Definition window_args (cfg : Config) : list pystr :=
  (if truthy (FROM cfg) then [py "--from"; FROM cfg] else [])
  ++ (if truthy (TO cfg) then [py "--to"; TO cfg] else []).

Definition quiet_args (cfg : Config) (force_non_quiet : bool) : list pystr :=
  if (QUIET cfg && negb force_non_quiet)%bool then [py "-q"] else [].

(** The literals the builder can emit. *)
Definition fixed_literals : list pystr :=
  [py "chainsaw"; py "hunt"; py "--mapping"; py "--output"; py "--sigma";
   py "--csv"; py "--json"; py "--log"; py "--level"; py "--local";
   py "--timezone"; py "-r"; py "--from"; py "--to"; py "-q"].

(** The settings whose values the builder can emit. *)
Definition config_values (cfg : Config) : list pystr :=
  [MAPPING_YML cfg; SIGMA_DIR cfg; TIMEZONE cfg; FROM cfg; TO cfg]
  ++ CHAINS_LEVELS cfg.

(** Every value that reaches the vector from outside the builder. *)
Definition supplied_values (cfg : Config)
    (evtx_file output_dir rules_dir : pystr) : list pystr :=
  [evtx_file; output_dir; rules_dir] ++ config_values cfg.


(** ** Observations on traces and results *)



(** The argument vectors of the SCANNER processes started, in order. *)
Fixpoint runs_of (tr : trace) : list (list pystr) :=
  match tr with
  | [] => []
  | ERun argv :: tr' => argv :: runs_of tr'
  | _ :: tr' => runs_of tr'
  end.

(** A computation adds no event selected by [P] to the trace. *)
Definition silent {A} (P : event -> bool) (m : M A) : Prop :=
  forall tr, filter P (fst (m tr)) = filter P tr.

(** A computation raises nothing but [Exception]s. *)
Definition exc_only {A} (m : M A) : Prop :=
  forall tr tr' e, m tr = (tr', Raise e) -> exists msg, e = Exception msg.

(** The texts written by [write_header], in order. *)
Definition header_texts (cfg : Config) (w : HostWorld)
    (host_dir out_dir rules_dir : pystr) (evtx_files : list pystr)
    : list pystr :=
  [py "# started: " ++ now_iso w ++ nl;
   py "# host_dir: " ++ host_dir ++ nl;
   py "# levels: " ++
     (match CHAINS_LEVELS cfg with
      | [] => py "ALL"
      | _ => join (py ",") (CHAINS_LEVELS cfg)
      end) ++ nl;
   py "# mode: " ++ CHAINS_MODE cfg ++ py ", format: " ++ CHAINS_FORMAT cfg ++ nl;
   py "# output_dir: " ++ out_dir ++ nl;
   py "# rules_dir: " ++ rules_dir ++ nl;
   py "# target files:" ++ nl]
  ++ match evtx_files with
     | [] => [py "#   (none found)" ++ nl]
     | _ => map (fun f => py "#   " ++ f ++ nl) evtx_files
     end
  ++ [py "# target count: " ++ of_nat (List.length evtx_files) ++ nl ++ nl].

(** Whether the csv loop stops at an artifact: it can be read and has more
    than one non-blank line. *)
Definition csv_hit (a : Artifact) : bool :=
  match a_read a with
  | Ok text => Nat.ltb 1 (List.length (rows text))
  | Fails _ => false
  end.

(** Whether the json loop stops at an artifact. *)
Definition json_hit (a : Artifact) : bool :=
  match a_read a with
  | Ok text => truthy (strip text)
  | Fails _ => false
  end.

(** The prefix of a list up to and including the first element with [hit]. *)
Fixpoint through_first {A} (hit : A -> bool) (l : list A) : list A :=
  match l with
  | [] => []
  | a :: l' => if hit a then [a] else a :: through_first hit l'
  end.


(** The steps before the [try] succeed. *)
Definition pre_ok (cfg : Config) (w : HostWorld) : Prop :=
  makedirs_out w = Ok tt
  /\ (exists entries, rglob_out w = Ok entries)
  /\ (truthy (CHAINS_RULE_DIR cfg) = true \/ exists d, mkdtemp_out w = Ok d).



Definition artifact_path (out_dir : pystr) (a : Artifact) : pystr :=
  path_join out_dir (a_name a).

Definition first_hit (hit : Artifact -> bool) (out_dir : pystr)
    (files : list Artifact) : bool * option pystr :=
  match find hit files with
  | Some a => (true, Some (artifact_path out_dir a))
  | None => (false, None)
  end.



(** The detection check as [run_body] performs it in either mode. *)
Definition check (cfg : Config) (w : HostWorld) (out_dir logp : pystr)
    : M (bool * option pystr) :=
  if eqb (CHAINS_FORMAT cfg) (py "csv") then
    files <- sorted_glob w out_dir (py ".csv") ;;
    scan_csv out_dir files
  else if eqb (CHAINS_FORMAT cfg) (py "json") then
    files <- sorted_glob w out_dir (py ".json") ;;
    scan_json out_dir files
  else if QUIET cfg then ret (false, None)
  else detect_log w logp.

(** The status line and the result dictionary that end [run_body]. *)
Definition finish (cfg : Config) (host_name logp : pystr)
    (dr : bool * option pystr) : M ScanResult :=
  print (if QUIET cfg then
           py "[" ++ status_of (fst dr) ++ py "] " ++ host_name ++ py " -> " ++
           path_or (snd dr) (py "(no report file)")
         else
           py "[" ++ status_of (fst dr) ++ py "] " ++ host_name ++ py " -> " ++
           path_or (snd dr) (py "(no report file)") ++
           py " (log: " ++ logp ++ py ")") ;;
  ret {| host := host_name; report_path := snd dr;
         log_path := if QUIET cfg then None else Some logp;
         detected := fst dr |}.

(** The events of lines 127-144 when they succeed. *)
Definition pre_events (cfg : Config) (w : HostWorld) (host_dir : pystr)
    : list event :=
  EMakedirs (out_dir_of cfg w host_dir)
  :: (if truthy (CHAINS_RULE_DIR cfg) then []
      else match mkdtemp_out w with
           | Ok d => [EMkdtemp d]
           | Fails _ => []
           end).

(** The rules directory in use and the temporary one, if any. *)
Definition rules_of (cfg : Config) (w : HostWorld) : option pystr * pystr :=
  if truthy (CHAINS_RULE_DIR cfg) then (None, CHAINS_RULE_DIR cfg)
  else match mkdtemp_out w with
       | Ok d => (Some d, d)
       | Fails _ => (None, [])
       end.

(** What the [finally] clause adds to the trace. *)
Definition cleanup_events (w : HostWorld) (temp : option pystr) : list event :=
  match temp with
  | Some d =>
      if (truthy d && temp_isdir w)%bool then [ERmtree d (rmtree_ok w)] else []
  | None => []
  end.

(** The [try] body up to the detection check. *)
Definition work (cfg : Config) (w : HostWorld)
    (host_dir out_dir logp rules_dir : pystr) (files : list pystr) : M unit :=
  if QUIET cfg then
    match files with
    | [] => ret tt
    | _ => run_files_quiet cfg w out_dir rules_dir 0 files
    end
  else
    open_log w logp ;;
    write_header cfg w host_dir out_dir rules_dir files ;;
    match files with
    | [] => write (py "# skipped: no .evtx found" ++ nl)
    | _ => run_files_verbose cfg w out_dir rules_dir 0 files
    end.

(** The outcome of the [try] body of one host, started after lines 127-144
    have succeeded. *)
Definition try_body_outcome (cfg : Config) (w : HostWorld) (host_dir : pystr)
    : trace * outcome ScanResult :=
  run_body cfg w host_dir (host_of host_dir) (out_dir_of cfg w host_dir)
    (log_path_of cfg w host_dir) (snd (rules_of cfg w))
    (match rglob_out w with Ok entries => evtx_filter entries | Fails _ => [] end)
    (pre_events cfg w host_dir).

(** A computation only appends to the trace. *)
Definition extends {A} (m : M A) : Prop :=
  forall tr, exists evs, fst (m tr) = tr ++ evs.

(** ** The enumeration as the specification words it *)






(** The paths read during a run, in order. *)
Fixpoint reads_of (tr : trace) : list pystr :=
  match tr with
  | [] => []
  | ERead p :: tr' => p :: reads_of tr'
  | _ :: tr' => reads_of tr'
  end.





(** The (subject, body) pairs with which the Notifier was invoked. *)
Fixpoint mails_of (tr : trace) : list (pystr * pystr) :=
  match tr with
  | [] => []
  | ESendMail subject body :: tr' => (subject, body) :: mails_of tr'
  | _ :: tr' => mails_of tr'
  end.

(** ** The argument vector with the origin of each element

    An element of the vector is either a string literal of the builder (a
    flag, or the program and mode names) or a value handed to it. *)

Inductive origin := Literal | Supplied.

Definition tagged_cmd (cfg : Config)
    (evtx_file output_dir rules_dir : pystr) (force_non_quiet : bool)
    : list (origin * pystr) :=
  [(Literal, py "chainsaw"); (Literal, py "hunt");
   (Literal, py "--mapping"); (Supplied, MAPPING_YML cfg);
   (Literal, py "--output"); (Supplied, output_dir);
   (Literal, py "--sigma"); (Supplied, SIGMA_DIR cfg)]
  ++ [(Literal,
       if eqb (CHAINS_FORMAT cfg) (py "csv") then py "--csv"
       else if eqb (CHAINS_FORMAT cfg) (py "json") then py "--json"
       else if eqb (CHAINS_FORMAT cfg) (py "log") then py "--log"
       else py "--csv")]
  ++ flat_map (fun lv => [(Literal, py "--level"); (Supplied, lv)])
              (CHAINS_LEVELS cfg)
  ++ (if LOCAL_TIME cfg then [(Literal, py "--local")]
      else if truthy (TIMEZONE cfg)
           then [(Literal, py "--timezone"); (Supplied, TIMEZONE cfg)]
           else [])
  ++ [(Literal, py "-r"); (Supplied, rules_dir)]
  ++ (if truthy (FROM cfg) then [(Literal, py "--from"); (Supplied, FROM cfg)]
      else [])
  ++ (if truthy (TO cfg) then [(Literal, py "--to"); (Supplied, TO cfg)]
      else [])
  ++ (if (QUIET cfg && negb force_non_quiet)%bool then [(Literal, py "-q")]
      else [])
  ++ [(Supplied, evtx_file)].

(** ** Further observations on one host run *)

Definition is_rmtree (e : event) : bool :=
  match e with ERmtree _ _ => true | _ => false end.

Definition is_mkdtemp (e : event) : bool :=
  match e with EMkdtemp _ => true | _ => false end.

(** The events that concern the log file of the host. *)
Definition is_log_event (e : event) : bool :=
  match e with EOpen _ | EWrite _ | EChildOut _ => true | _ => false end.

(** [P] selects none of the events that the [try] body can perform. *)
Definition body_blind (P : event -> bool) : Prop :=
  (forall p, P (EOpen p) = false)
  /\ (forall t, P (EWrite t) = false)
  /\ (forall a, P (ERun a) = false)
  /\ (forall t, P (EChildOut t) = false)
  /\ (forall d p, P (EGlob d p) = false)
  /\ (forall p, P (ERead p) = false)
  /\ (forall t, P (EPrint t) = false).

(** The files of the loop for which a process is started: the loop stops at
    the first [subprocess.run] that raises. *)
Fixpoint started (cfg : Config) (w : HostWorld) (out_dir rules_dir : pystr)
    (force_non_quiet : bool) (i : nat) (files : list pystr) : list pystr :=
  match files with
  | [] => []
  | f :: rest =>
      match run_out w i (build_hunt_cmd_for_file cfg f out_dir rules_dir
                           force_non_quiet) with
      | Ok _ => f :: started cfg w out_dir rules_dir force_non_quiet (S i) rest
      | Fails _ => []
      end
  end.



(** ** Further sample inputs *)

Module More.

(** Quiet mode with the json format and a configured rules directory. *)
Definition cfg_json : Config := {|
  EVTX_ROOT := py "/workspace/evtx";
  REPORTS_DIR := py "/workspace/reports";
  CHAINS_MODE := py "hunt";
  CHAINS_FORMAT := py "json";
  CHAINS_LEVELS := [py "high"];
  SIGMA_DIR := py "/sigma";
  MAPPING_YML := py "/map.yml";
  CHAINS_RULE_DIR := py "/rules";
  QUIET := true;
  LOCAL_TIME := true;
  TIMEZONE := [];
  FROM := py "2024-01-01T00:00:00";
  TO := [];
  EXTENSIONS := [py ".evtx"];
  SMTP_HOST := py "mail";
  MAIL_FROM := py "a@x";
  MAIL_TO := [py "b@x"];
  MAIL_SUBJECT_PREFIX := py "[Chainsaw Detection]"
|}.



(** The settings of [Sample.cfg] without an SMTP host. *)
Definition cfg_no_mail : Config := {|
  EVTX_ROOT := py "/workspace/evtx";
  REPORTS_DIR := py "/workspace/reports";
  CHAINS_MODE := py "hunt";
  CHAINS_FORMAT := py "csv";
  CHAINS_LEVELS := [];
  SIGMA_DIR := py "/sigma";
  MAPPING_YML := py "/map.yml";
  CHAINS_RULE_DIR := [];
  QUIET := true;
  LOCAL_TIME := true;
  TIMEZONE := [];
  FROM := [];
  TO := [];
  EXTENSIONS := [py ".evtx"];
  SMTP_HOST := [];
  MAIL_FROM := py "a@x";
  MAIL_TO := [py "b@x"];
  MAIL_SUBJECT_PREFIX := py "[Chainsaw Detection]"
|}.

(** The two hosts of [Sample.mw_two_hosts], with an SMTP server that cannot
    be reached. *)
Definition mw_smtp_down : MainWorld := {|
  listdir_root := [(py "HOST-A", true); (py "HOST-B", true); (py "notes.txt", false)];
  as_completed := fun l => rev l;
  host_world :=
    fun hd => if eqb hd Sample.host_a then Sample.world_no_scanner
              else Sample.world_two_csv;
  smtp_answer := Fails (py "[Errno 111] Connection refused")
|}.

(** The results of the two hosts, in the order in which they finish. *)
Definition two_results : list ScanResult :=
  [ {| host := py "HOST-B";
       report_path := Some (py "/workspace/reports/HOST-B-20240101000000/b.csv");
       log_path := None; detected := true |};
    {| host := py "HOST-A"; report_path := None;
       log_path := None; detected := false |} ].

End More.


(** ** Reading an argument vector back *)

(** The elements of a vector that directly follow an occurrence of [flag],
    in order: the values given to that option. *)
Fixpoint values_after (flag : pystr) (cmd : list pystr) : list pystr :=
  match cmd with
  | [] => []
  | a :: t =>
      (if eqb a flag then match t with b :: _ => [b] | [] => [] end else [])
      ++ values_after flag t
  end.


(** The output-format flags of the SCANNER. *)
Definition is_format_flag (a : pystr) : bool :=
  (eqb a (py "--csv") || eqb a (py "--json") || eqb a (py "--log"))%bool.


(** ** Start-up checks and the whole script *)







(** ** Further observations on the orchestrator *)

Definition is_smtp (e : event) : bool :=
  match e with ESmtp _ _ => true | _ => false end.


(** The messages handed to the SMTP server. *)
Fixpoint smtp_of (tr : trace) : list (pystr * pystr) :=
  match tr with
  | [] => []
  | ESmtp subject body :: tr' => (subject, body) :: smtp_of tr'
  | _ :: tr' => smtp_of tr'
  end.

(** The mail settings suffice for sending (line 278). *)
Definition mail_configured (cfg : Config) : bool :=
  (truthy (SMTP_HOST cfg) && truthy (MAIL_FROM cfg)
   && match MAIL_TO cfg with [] => false | _ => true end)%bool.

(** The status line that [main] prints for one result (line 319). *)
Definition status_line (res : ScanResult) : pystr :=
  py "[" ++ status_of (detected res) ++ py "] " ++ host res ++
  py " -> " ++ repr_path (report_path res).


(** ** Reading the settings from the environment (lines 18-46) *)

(** The process environment. *)
Definition Env := pystr -> option pystr.

(** [os.getenv(name, default)]. *)
Definition getenv (env : Env) (name default : pystr) : pystr :=
  match env name with
  | Some v => v
  | None => default
  end.

(** [s.split(c)] for a one-character separator: never an empty list. *)
Fixpoint split_char (c : N) (s : pystr) : list pystr :=
  match s with
  | [] => [[]]
  | x :: t =>
      if N.eqb x c then [] :: split_char c t
      else match split_char c t with
           | h :: rest => (x :: h) :: rest
           | [] => [[x]]
           end
  end.

(** [[x.strip() for x in v.split(",") if x.strip()]], the form of
    CHAINS_LEVELS, EXTENSIONS and MAIL_TO. *)
Definition env_list (v : pystr) : list pystr :=
  filter truthy (map strip (split_char 44%N v)).

(** [v.strip().lower() == "true"], the form of QUIET, LOCAL_TIME and
    SMTP_TLS.  The ASCII [lower] decides the comparison as [str.lower] does:
    no code point outside ASCII lowers to a letter of the literal. *)
Definition env_flag (v : pystr) : bool :=
  eqb (lower (strip v)) (py "true").

(** A string without leading or trailing white space. *)
Definition stripped (s : pystr) : Prop :=
  (forall c t, s = c :: t -> isspace c = false)
  /\ (forall c t, s = t ++ [c] -> isspace c = false).

(** A string of white space only. *)
Definition blank (s : pystr) : Prop := Forall (fun c => isspace c = true) s.


(** A string that holds no line boundary of [str.splitlines]. *)
Definition break_free (l : pystr) : Prop :=
  forall c, In c l -> is_linebreak c = false.

(** A line with a character that is not white space. *)
Definition non_blank (l : pystr) : Prop :=
  exists c, In c l /\ isspace c = false.


(** * Properties *)

(** ** Strings *)

Lemma eqb_eq (a b : pystr) : eqb a b = true <-> a = b.
Proof.
  revert b; induction a as [|x a IH]; intros [|y b]; simpl;
    try (split; intro; congruence).
  rewrite andb_true_iff, N.eqb_eq, IH. split.
  - now intros [-> ->].
  - intro H; injection H; auto.
Qed.

Lemma eqb_refl (a : pystr) : eqb a a = true.
Proof. now apply eqb_eq. Qed.

Lemma eqb_neq (a b : pystr) : eqb a b = false <-> a <> b.
Proof.
  rewrite <- eqb_eq. destruct (eqb a b); split; congruence.
Qed.

(** ** Command builder *)

Lemma fold_left_extend (a : pystr) (l : list pystr) (c : list pystr) :
  fold_left (fun c lv => c ++ [a; lv]) l c
  = c ++ flat_map (fun lv => [a; lv]) l.
Proof.
  revert c; induction l as [|lv l IH]; intro c; simpl.
  - now rewrite app_nil_r.
  - rewrite IH, <- app_assoc. reflexivity.
Qed.

(** The vector is the concatenation of its parts, in the order of the
    statements of the builder. *)
Lemma build_hunt_cmd_shape cfg f o r q :
  build_hunt_cmd_for_file cfg f o r q
  = head_args cfg o ++ format_args cfg ++ level_args cfg ++ time_args cfg
    ++ [py "-r"; r] ++ window_args cfg ++ quiet_args cfg q ++ [f].
Proof.
  unfold build_hunt_cmd_for_file, head_args, format_args, level_args,
    time_args, window_args, quiet_args.
  assert (E : forall X : list pystr,
    (if eqb (CHAINS_FORMAT cfg) (py "csv") then X ++ [py "--csv"]
     else if eqb (CHAINS_FORMAT cfg) (py "json") then X ++ [py "--json"]
     else if eqb (CHAINS_FORMAT cfg) (py "log") then X ++ [py "--log"]
     else X ++ [py "--csv"])
    = X ++ (if eqb (CHAINS_FORMAT cfg) (py "json") then [py "--json"]
            else if eqb (CHAINS_FORMAT cfg) (py "log") then [py "--log"]
            else [py "--csv"])).
  { intro X. destruct (eqb (CHAINS_FORMAT cfg) (py "csv")) eqn:Ec.
    - apply eqb_eq in Ec. rewrite Ec. reflexivity.
    - destruct (eqb (CHAINS_FORMAT cfg) (py "json")); [reflexivity|].
      destruct (eqb (CHAINS_FORMAT cfg) (py "log")); reflexivity. }
  rewrite E, fold_left_extend.
  destruct (LOCAL_TIME cfg), (truthy (TIMEZONE cfg)), (truthy (FROM cfg)),
    (truthy (TO cfg)), (QUIET cfg && negb q)%bool;
    repeat rewrite <- app_assoc; simpl; repeat rewrite app_nil_r;
    repeat rewrite <- app_assoc; reflexivity.
Qed.

Lemma in_level_args cfg x :
  In x (level_args cfg) -> x = py "--level" \/ In x (CHAINS_LEVELS cfg).
Proof.
  unfold level_args. induction (CHAINS_LEVELS cfg) as [|lv l IH]; simpl.
  - tauto.
  - intros [H|[H|H]]; auto. destruct (IH H); auto.
Qed.

(** Where an element of the vector comes from: a literal other than the two
    time flags, a value supplied from outside, or the time step. *)
Lemma in_cmd_origin cfg f o r q x :
  In x (build_hunt_cmd_for_file cfg f o r q) ->
  In x [py "chainsaw"; py "hunt"; py "--mapping"; py "--output"; py "--sigma";
        py "--csv"; py "--json"; py "--log"; py "--level"; py "-r";
        py "--from"; py "--to"; py "-q"]
  \/ In x (supplied_values cfg f o r)
  \/ In x (time_args cfg).
Proof.
  rewrite build_hunt_cmd_shape.
  unfold head_args, format_args, window_args, quiet_args, supplied_values,
    config_values.
  rewrite !in_app_iff.
  intros [H|[H|[H|[H|[H|[H|[H|H]]]]]]].
  - simpl in H. simpl. intuition auto.
  - destruct (eqb (CHAINS_FORMAT cfg) (py "json"));
      [|destruct (eqb (CHAINS_FORMAT cfg) (py "log"))];
      simpl in H; simpl; intuition auto.
  - apply in_level_args in H. simpl. intuition auto.
  - auto.
  - simpl in H. simpl. intuition auto.
  - destruct H as [H|H];
      [destruct (truthy (FROM cfg))|destruct (truthy (TO cfg))];
      simpl in H; simpl; intuition auto.
  - destruct (QUIET cfg && negb q)%bool; simpl in H; simpl; intuition auto.
  - simpl in H. simpl. intuition auto.
Qed.

Lemma time_args_in_cmd cfg f o r q x :
  In x (time_args cfg) -> In x (build_hunt_cmd_for_file cfg f o r q).
Proof.
  rewrite build_hunt_cmd_shape, !in_app_iff. auto.
Qed.

Lemma local_not_plain_literal :
  ~ In (py "--local")
      [py "chainsaw"; py "hunt"; py "--mapping"; py "--output"; py "--sigma";
       py "--csv"; py "--json"; py "--log"; py "--level"; py "-r";
       py "--from"; py "--to"; py "-q"].
Proof.
  simpl. intros H.
  repeat (destruct H as [H|H]; [vm_compute in H; discriminate H|]). exact H.
Qed.

Lemma timezone_not_plain_literal :
  ~ In (py "--timezone")
      [py "chainsaw"; py "hunt"; py "--mapping"; py "--output"; py "--sigma";
       py "--csv"; py "--json"; py "--log"; py "--level"; py "-r";
       py "--from"; py "--to"; py "-q"].
Proof.
  simpl. intros H.
  repeat (destruct H as [H|H]; [vm_compute in H; discriminate H|]). exact H.
Qed.

(** When no supplied value is spelled like one of the two time flags, what
    the time step appends can be read off the vector itself. *)
Lemma time_flags_in_vector cfg f o r q :
  (forall v, In v (supplied_values cfg f o r) ->
             v <> py "--local" /\ v <> py "--timezone") ->
  let cmd := build_hunt_cmd_for_file cfg f o r q in
  (In (py "--local") cmd <-> LOCAL_TIME cfg = true)
  /\ (In (py "--timezone") cmd <->
      truthy (TIMEZONE cfg) = true /\ LOCAL_TIME cfg = false)
  /\ ~ (In (py "--local") cmd /\ In (py "--timezone") cmd).
Proof.
  intros Hv cmd.
  assert (Htz : TIMEZONE cfg <> py "--local" /\ TIMEZONE cfg <> py "--timezone").
  { apply Hv. unfold supplied_values, config_values. simpl. auto 10. }
  assert (L : In (py "--local") cmd <-> LOCAL_TIME cfg = true).
  { split.
    - intros H. apply in_cmd_origin in H. destruct H as [H|[H|H]].
      + now apply local_not_plain_literal in H.
      + apply Hv in H. tauto.
      + unfold time_args in H. destruct (LOCAL_TIME cfg); [reflexivity|].
        destruct (truthy (TIMEZONE cfg)); cbn [In] in H.
        * destruct H as [H|[H|[]]]; [vm_compute in H; discriminate H|].
          exfalso. apply (proj1 Htz). exact H.
        * destruct H.
    - intros H. apply time_args_in_cmd. unfold time_args. rewrite H.
      simpl. auto. }
  assert (T : In (py "--timezone") cmd <->
              truthy (TIMEZONE cfg) = true /\ LOCAL_TIME cfg = false).
  { split.
    - intros H. apply in_cmd_origin in H. destruct H as [H|[H|H]].
      + now apply timezone_not_plain_literal in H.
      + apply Hv in H. tauto.
      + unfold time_args in H. destruct (LOCAL_TIME cfg); cbn [In] in H.
        * destruct H as [H|[]]. vm_compute in H. discriminate H.
        * destruct (truthy (TIMEZONE cfg)); [auto|destruct H].
    - intros [H1 H2]. apply time_args_in_cmd. unfold time_args.
      rewrite H1, H2. simpl. auto. }
  split; [exact L|]. split; [exact T|].
  intros [H1 H2]. apply L in H1. apply T in H2. destruct H2. congruence.
Qed.

Lemma tagged_cmd_erase cfg f o r q :
  map snd (tagged_cmd cfg f o r q) = build_hunt_cmd_for_file cfg f o r q.
Proof.
  rewrite build_hunt_cmd_shape. unfold tagged_cmd.
  rewrite !map_app. unfold head_args, format_args, level_args, time_args,
    window_args, quiet_args.
  f_equal. f_equal.
  { cbn [map snd]. destruct (eqb (CHAINS_FORMAT cfg) (py "csv")) eqn:Ec.
    - apply eqb_eq in Ec. rewrite Ec. reflexivity.
    - destruct (eqb (CHAINS_FORMAT cfg) (py "json")); [reflexivity|].
      destruct (eqb (CHAINS_FORMAT cfg) (py "log")); reflexivity. }
  f_equal.
  { induction (CHAINS_LEVELS cfg) as [|lv l IH]; [reflexivity|].
    cbn [flat_map map app snd]. now rewrite IH. }
  f_equal.
  { destruct (LOCAL_TIME cfg); [|destruct (truthy (TIMEZONE cfg))]; reflexivity. }
  cbn [map snd app]. f_equal. f_equal.
  rewrite <- app_assoc. f_equal.
  { destruct (truthy (FROM cfg)); reflexivity. }
  f_equal.
  { destruct (truthy (TO cfg)); reflexivity. }
  f_equal. destruct (QUIET cfg && negb q)%bool; reflexivity.
Qed.

Lemma in_tagged_levels (x : pystr) (l : list pystr) :
  x <> py "--level" ->
  ~ In (Literal, x)
       (flat_map (fun lv => [(Literal, py "--level"); (Supplied, lv)]) l).
Proof.
  intro Hx. induction l as [|lv l IH]; cbn [flat_map app In]; [tauto|].
  intros [H|[H|H]]; [inversion H; congruence|discriminate H|auto].
Qed.

(** Among the literals of the vector, the time flags come from the time
    step alone. *)
Lemma in_tagged_time cfg f o r q x :
  x = py "--local" \/ x = py "--timezone" ->
  In (Literal, x) (tagged_cmd cfg f o r q) <->
  In (Literal, x)
     (if LOCAL_TIME cfg then [(Literal, py "--local")]
      else if truthy (TIMEZONE cfg)
           then [(Literal, py "--timezone"); (Supplied, TIMEZONE cfg)]
           else []).
Proof.
  intro Hx. unfold tagged_cmd. rewrite !in_app_iff.
  assert (N1 : ~ In (Literal, x)
                 [(Literal, py "chainsaw"); (Literal, py "hunt");
                  (Literal, py "--mapping"); (Supplied, MAPPING_YML cfg);
                  (Literal, py "--output"); (Supplied, o);
                  (Literal, py "--sigma"); (Supplied, SIGMA_DIR cfg)]).
  { cbn [In]. intros H.
    repeat (destruct H as [H|H];
            [inversion H as [E]; destruct Hx as [-> | ->];
             vm_compute in E; discriminate E|]).
    exact H. }
  assert (N2 : ~ In (Literal, x)
                 [(Literal,
                   if eqb (CHAINS_FORMAT cfg) (py "csv") then py "--csv"
                   else if eqb (CHAINS_FORMAT cfg) (py "json") then py "--json"
                   else if eqb (CHAINS_FORMAT cfg) (py "log") then py "--log"
                   else py "--csv")]).
  { cbn [In]. intros [H|[]]. inversion H as [E]. clear H.
    destruct (eqb (CHAINS_FORMAT cfg) (py "csv"));
      [|destruct (eqb (CHAINS_FORMAT cfg) (py "json"));
        [|destruct (eqb (CHAINS_FORMAT cfg) (py "log"))]];
      destruct Hx as [-> | ->]; vm_compute in E; discriminate E. }
  assert (N3 : ~ In (Literal, x)
                 (flat_map (fun lv => [(Literal, py "--level"); (Supplied, lv)])
                           (CHAINS_LEVELS cfg))).
  { apply in_tagged_levels.
    destruct Hx as [-> | ->]; intro E; vm_compute in E; discriminate E. }
  assert (N4 : ~ In (Literal, x) [(Literal, py "-r"); (Supplied, r)]).
  { cbn [In]. intros [H|[H|[]]]; [|discriminate H].
    inversion H as [E]. destruct Hx as [-> | ->]; vm_compute in E; discriminate E. }
  assert (N5 : ~ In (Literal, x)
                 (if truthy (FROM cfg)
                  then [(Literal, py "--from"); (Supplied, FROM cfg)] else [])).
  { destruct (truthy (FROM cfg)); cbn [In]; [|tauto].
    intros [H|[H|[]]]; [|discriminate H].
    inversion H as [E]. destruct Hx as [-> | ->]; vm_compute in E; discriminate E. }
  assert (N6 : ~ In (Literal, x)
                 (if truthy (TO cfg)
                  then [(Literal, py "--to"); (Supplied, TO cfg)] else [])).
  { destruct (truthy (TO cfg)); cbn [In]; [|tauto].
    intros [H|[H|[]]]; [|discriminate H].
    inversion H as [E]. destruct Hx as [-> | ->]; vm_compute in E; discriminate E. }
  assert (N7 : ~ In (Literal, x)
                 (if (QUIET cfg && negb q)%bool then [(Literal, py "-q")] else [])).
  { destruct (QUIET cfg && negb q)%bool; cbn [In]; [|tauto].
    intros [H|[]]. inversion H as [E].
    destruct Hx as [-> | ->]; vm_compute in E; discriminate E. }
  assert (N8 : ~ In (Literal, x) [(Supplied, f)]).
  { cbn [In]. intros [H|[]]. discriminate H. }
  tauto.
Qed.

(** C7. The builder never puts both the local-time flag and the timezone
    flag into the argument vector: the flag "--local" is in it exactly when
    LOCAL_TIME is on, and the flag "--timezone" exactly when a TIMEZONE is
    configured and LOCAL_TIME is off.  A flag is an element that the builder
    writes as a literal; when no supplied value (paths, levels, time zone,
    window bounds) is spelled like one of the two flags, the same holds for
    the bare strings of the vector. *)
Theorem build_hunt_cmd_time_flag_exclusive cfg f o r q :
  let tagged := tagged_cmd cfg f o r q in
  let cmd := build_hunt_cmd_for_file cfg f o r q in
  map snd tagged = cmd
  /\ (In (Literal, py "--local") tagged <-> LOCAL_TIME cfg = true)
  /\ (In (Literal, py "--timezone") tagged <->
      truthy (TIMEZONE cfg) = true /\ LOCAL_TIME cfg = false)
  /\ ~ (In (Literal, py "--local") tagged /\ In (Literal, py "--timezone") tagged)
  /\ ((forall v, In v (supplied_values cfg f o r) ->
                 v <> py "--local" /\ v <> py "--timezone") ->
      (In (py "--local") cmd <-> LOCAL_TIME cfg = true)
      /\ (In (py "--timezone") cmd <->
          truthy (TIMEZONE cfg) = true /\ LOCAL_TIME cfg = false)
      /\ ~ (In (py "--local") cmd /\ In (py "--timezone") cmd)).
Proof.
  intros tagged cmd.
  assert (L : In (Literal, py "--local") tagged <-> LOCAL_TIME cfg = true).
  { unfold tagged. rewrite in_tagged_time by auto.
    destruct (LOCAL_TIME cfg); [|destruct (truthy (TIMEZONE cfg))]; cbn [In].
    - tauto.
    - split; [|discriminate].
      intros [H|[H|[]]]; [vm_compute in H|]; discriminate H.
    - split; [tauto|discriminate]. }
  assert (T : In (Literal, py "--timezone") tagged <->
              truthy (TIMEZONE cfg) = true /\ LOCAL_TIME cfg = false).
  { unfold tagged. rewrite in_tagged_time by auto.
    destruct (LOCAL_TIME cfg); [|destruct (truthy (TIMEZONE cfg))]; cbn [In].
    - split; [|intros [_ H]; discriminate H].
      intros [H|[]]. vm_compute in H. discriminate H.
    - tauto.
    - split; [tauto|intros [H _]; discriminate H]. }
  split; [apply tagged_cmd_erase|]. split; [exact L|]. split; [exact T|].
  split.
  - intros [H1 H2]. apply L in H1. apply T in H2. destruct H2. congruence.
  - apply time_flags_in_vector.
Qed.

Lemma build_hunt_cmd_time_flag_exclusive_witness :
  let cmd := build_hunt_cmd_for_file Sample.cfg_log (py "/h/a.evtx") (py "/out")
               (py "/rules") false in
  In (py "--timezone") cmd /\ ~ In (py "--local") cmd.
Proof.
  destruct (build_hunt_cmd_time_flag_exclusive Sample.cfg_log (py "/h/a.evtx")
              (py "/out") (py "/rules") false) as (_ & _ & _ & _ & H).
  destruct H as (HL & HT & _).
  - intros v Hin. vm_compute in Hin.
    repeat (destruct Hin as [Hin|Hin];
            [subst v; split; intro H; vm_compute in H; discriminate H|]).
    destruct Hin.
  - split.
    + apply HT. split; reflexivity.
    + intro H. apply HL in H. discriminate H.
Defined.

Lemma time_args_origin cfg x :
  In x (time_args cfg) ->
  x = py "--local" \/ x = py "--timezone" \/ x = TIMEZONE cfg.
Proof.
  unfold time_args. destruct (LOCAL_TIME cfg); [|destruct (truthy (TIMEZONE cfg))];
    cbn [In]; intuition auto.
Qed.

(** C9. The builder is a function of the configuration and its four
    arguments alone: equal inputs give the equal vector, and every element of
    the vector is one of the builder's fixed literals, a configured value or
    one of the three path arguments, so nothing read from a clock or a random
    source can appear in it. *)
Theorem build_hunt_cmd_deterministic cfg f1 o1 r1 q1 f2 o2 r2 q2 :
  f1 = f2 -> o1 = o2 -> r1 = r2 -> q1 = q2 ->
  build_hunt_cmd_for_file cfg f1 o1 r1 q1
  = build_hunt_cmd_for_file cfg f2 o2 r2 q2
  /\ Forall (fun a => In a (fixed_literals ++ supplied_values cfg f1 o1 r1))
            (build_hunt_cmd_for_file cfg f1 o1 r1 q1).
Proof.
  intros -> -> -> ->. split; [reflexivity|].
  apply Forall_forall. intros x Hx.
  apply in_cmd_origin in Hx. apply in_app_iff.
  destruct Hx as [H|[H|H]].
  - left. unfold fixed_literals. cbn [In] in *. intuition auto 20.
  - now right.
  - apply time_args_origin in H. destruct H as [H|[H|H]].
    + left. unfold fixed_literals. cbn [In]. intuition auto 20.
    + left. unfold fixed_literals. cbn [In]. intuition auto 20.
    + right. unfold supplied_values, config_values. cbn [In app]. auto 10.
Qed.

Lemma build_hunt_cmd_deterministic_witness :
  build_hunt_cmd_for_file Sample.cfg (py "/h/a.evtx") (py "/out") (py "/rules") true
  = build_hunt_cmd_for_file Sample.cfg (py "/h/a.evtx") (py "/out") (py "/rules") true
  /\ Forall (fun a => In a (fixed_literals ++
                            supplied_values Sample.cfg (py "/h/a.evtx")
                              (py "/out") (py "/rules")))
            (build_hunt_cmd_for_file Sample.cfg (py "/h/a.evtx") (py "/out")
               (py "/rules") true).
Proof.
  apply (build_hunt_cmd_deterministic Sample.cfg
           (py "/h/a.evtx") (py "/out") (py "/rules") true
           (py "/h/a.evtx") (py "/out") (py "/rules") true);
    reflexivity.
Defined.

(** ** Effects *)

Section MonadFacts.
Context {A B : Type}.

Lemma bind_inv_Ret (m : M A) (k : A -> M B) tr tr' b :
  bind m k tr = (tr', Ret b) ->
  exists tr1 a, m tr = (tr1, Ret a) /\ k a tr1 = (tr', Ret b).
Proof.
  unfold bind. destruct (m tr) as [tr1 [a|e]]; intro H.
  - eauto.
  - discriminate H.
Qed.

Variable P : event -> bool.

Lemma silent_bind (m : M A) (k : A -> M B) :
  silent P m -> (forall a, silent P (k a)) -> silent P (bind m k).
Proof.
  intros Hm Hk tr. unfold bind. specialize (Hm tr).
  destruct (m tr) as [tr1 [a|e]]; simpl in *.
  - now rewrite Hk.
  - exact Hm.
Qed.

Lemma exc_only_bind (m : M A) (k : A -> M B) :
  exc_only m -> (forall a, exc_only (k a)) -> exc_only (bind m k).
Proof.
  intros Hm Hk tr tr' e. unfold bind.
  destruct (m tr) as [tr1 [a|e1]] eqn:E; intro H.
  - eapply Hk; eauto.
  - inversion H; subst. eapply Hm; eauto.
Qed.

End MonadFacts.

Section PrimitiveFacts.
Context {A : Type}.
Variable P : event -> bool.

Lemma silent_ret (a : A) : silent P (ret a).
Proof. intro tr. reflexivity. Qed.

Lemma silent_lift (o : answer A) : silent P (lift o).
Proof. intro tr. unfold lift. now destruct o. Qed.

Lemma silent_emit ev : P ev = false -> silent P (emit ev).
Proof.
  intros H tr. unfold emit. simpl. rewrite filter_app. simpl. rewrite H.
  apply app_nil_r.
Qed.

Lemma silent_get_trace : silent P get_trace.
Proof. intro tr. reflexivity. Qed.

Lemma silent_try_except (m : M A) h :
  silent P m -> (forall msg, silent P (h msg)) -> silent P (try_except m h).
Proof.
  intros Hm Hh tr. unfold try_except. specialize (Hm tr).
  destruct (m tr) as [tr1 [a|[msg|c]]]; simpl in *; auto.
  now rewrite Hh.
Qed.


Lemma exc_only_ret (a : A) : exc_only (ret a).
Proof. intros tr tr' e H. discriminate H. Qed.

Lemma exc_only_lift (o : answer A) : exc_only (lift o).
Proof.
  intros tr tr' e. unfold lift. destruct o; intro H; inversion H. eauto.
Qed.

Lemma exc_only_try_except (m : M A) h :
  exc_only m -> (forall msg, exc_only (h msg)) -> exc_only (try_except m h).
Proof.
  intros Hm Hh tr tr' e. unfold try_except.
  destruct (m tr) as [tr1 [a|[msg|c]]] eqn:E; intro H.
  - discriminate H.
  - eapply Hh; eauto.
  - inversion H; subst. eapply Hm; eauto.
Qed.

End PrimitiveFacts.

Lemma exc_only_emit ev : exc_only (emit ev).
Proof. intros tr tr' e H. discriminate H. Qed.

Lemma exc_only_get_trace : exc_only get_trace.
Proof. intros tr tr' e H. discriminate H. Qed.


Ltac exc_step :=
  first
    [ apply exc_only_ret
    | apply exc_only_lift
    | apply exc_only_get_trace
    | apply exc_only_emit
    | apply exc_only_bind; [|intros]
    | apply exc_only_try_except; [|intros]
    | match goal with
      | |- exc_only (if ?b then _ else _) => destruct b
      | |- exc_only (match ?x with _ => _ end) => destruct x
      end ].

(** ** Loops of the host runner *)

Lemma write_all_eq texts tr :
  write_all texts tr = (tr ++ map EWrite texts, Ret tt).
Proof.
  revert tr; induction texts as [|t texts IH]; intro tr; simpl.
  - now rewrite app_nil_r.
  - unfold bind, write, emit. rewrite IH, <- app_assoc. reflexivity.
Qed.

Lemma write_header_eq cfg w hd o r files tr :
  write_header cfg w hd o r files tr
  = (tr ++ map EWrite (header_texts cfg w hd o r files), Ret tt).
Proof.
  unfold write_header, header_texts, bind, write, emit.
  destruct files as [|f files].
  - cbn [map app]. repeat rewrite <- app_assoc. reflexivity.
  - rewrite write_all_eq. unfold bind, emit.
    rewrite !map_app. cbn [map app]. repeat rewrite <- app_assoc.
    reflexivity.
Qed.

Lemma scan_csv_eq out_dir files tr :
  scan_csv out_dir files tr
  = (tr ++ map (fun a => ERead (artifact_path out_dir a))
             (through_first csv_hit files),
     Ret (first_hit csv_hit out_dir files)).
Proof.
  revert tr; induction files as [|a files IH]; intro tr.
  - simpl. now rewrite app_nil_r.
  - cbn [scan_csv]. unfold bind at 1. unfold try_except, bind at 1.
    unfold read_artifact, bind, emit, lift, first_hit. cbn [find through_first].
    unfold csv_hit at 1 3. destruct (a_read a) as [text|msg]; cbn [ret].
    + destruct (Nat.ltb 1 (List.length (rows text))).
      * reflexivity.
      * rewrite IH. cbn [map]. rewrite <- app_assoc. reflexivity.
    + rewrite IH. cbn [map]. rewrite <- app_assoc. reflexivity.
Qed.

Lemma scan_json_eq out_dir files tr :
  scan_json out_dir files tr
  = (tr ++ map (fun a => ERead (artifact_path out_dir a))
             (through_first json_hit files),
     Ret (first_hit json_hit out_dir files)).
Proof.
  revert tr; induction files as [|a files IH]; intro tr.
  - simpl. now rewrite app_nil_r.
  - cbn [scan_json]. unfold bind at 1. unfold try_except, bind at 1.
    unfold read_artifact, bind, emit, lift, first_hit. cbn [find through_first].
    unfold json_hit at 1 3. destruct (a_read a) as [text|msg]; cbn [ret].
    + destruct (truthy (strip text)).
      * reflexivity.
      * rewrite IH. cbn [map]. rewrite <- app_assoc. reflexivity.
    + rewrite IH. cbn [map]. rewrite <- app_assoc. reflexivity.
Qed.




Lemma exc_only_total {A} (m : M A) :
  (forall tr, exists tr' a, m tr = (tr', Ret a)) -> exc_only m.
Proof.
  intros H tr tr' e E. destruct (H tr) as (t & a & Ha). congruence.
Qed.

Lemma run_files_quiet_exc cfg w o r files i :
  exc_only (run_files_quiet cfg w o r i files).
Proof.
  revert i; induction files as [|f files IH]; intro i; cbn [run_files_quiet].
  - exc_step.
  - unfold subprocess_run. repeat exc_step. apply IH.
Qed.

Lemma run_files_verbose_exc cfg w o r files i :
  exc_only (run_files_verbose cfg w o r i files).
Proof.
  revert i; induction files as [|f files IH]; intro i; cbn [run_files_verbose].
  - exc_step.
  - unfold subprocess_run, write. repeat exc_step. apply IH.
Qed.

Lemma check_exc cfg w o lp : exc_only (check cfg w o lp).
Proof.
  unfold check, sorted_glob, detect_log, read_log.
  repeat exc_step;
    try (apply exc_only_total; intro tr; rewrite ?scan_csv_eq, ?scan_json_eq;
         eauto).
Qed.

Lemma bind_assoc {A B C} (m : M A) (k : A -> M B) (k' : B -> M C) tr :
  bind (bind m k) k' tr = bind m (fun a => bind (k a) k') tr.
Proof.
  unfold bind. destruct (m tr) as [tr1 [a|e]]; reflexivity.
Qed.

Lemma run_body_split cfg w hd h o lp r files tr :
  run_body cfg w hd h o lp r files tr
  = bind (work cfg w hd o lp r files)
         (fun _ => bind (check cfg w o lp) (finish cfg h lp)) tr.
Proof.
  unfold run_body, work, check, finish.
  destruct (QUIET cfg) eqn:Q; cbn [negb].
  - destruct (eqb (CHAINS_FORMAT cfg) (py "csv")); [|
      destruct (eqb (CHAINS_FORMAT cfg) (py "json"))]; reflexivity.
  - rewrite !bind_assoc. unfold bind at 1. symmetry. unfold bind at 1.
    destruct (open_log w lp tr) as [tr1 [[]|e]]; [|reflexivity].
    rewrite !bind_assoc. unfold bind at 1. symmetry. unfold bind at 1.
    destruct (write_header cfg w hd o r files tr1) as [tr2 [[]|e]];
      [|reflexivity].
    destruct (eqb (CHAINS_FORMAT cfg) (py "csv")); [|
      destruct (eqb (CHAINS_FORMAT cfg) (py "json"))]; reflexivity.
Qed.

Lemma work_exc cfg w hd o lp r files : exc_only (work cfg w hd o lp r files).
Proof.
  unfold work.
  destruct (QUIET cfg).
  - destruct files; [exc_step|apply run_files_quiet_exc].
  - apply exc_only_bind; [unfold open_log; repeat exc_step|intros _].
    apply exc_only_bind; [|intros _].
    + apply exc_only_total. intro tr. rewrite write_header_eq. eauto.
    + destruct files; [apply exc_only_emit|apply run_files_verbose_exc].
Qed.

Lemma run_body_check cfg w hd h o lp r files tr :
  (exists tr1 msg,
     run_body cfg w hd h o lp r files tr = (tr1, Raise (Exception msg)))
  \/ (exists tr1,
        run_body cfg w hd h o lp r files tr
        = bind (check cfg w o lp) (finish cfg h lp) tr1).
Proof.
  rewrite run_body_split. unfold bind at 1 3.
  destruct (work cfg w hd o lp r files tr) as [tr1 [[]|e]] eqn:E.
  - right. eauto.
  - left. destruct (work_exc _ _ _ _ _ _ _ _ _ _ E) as [msg ->]. eauto.
Qed.

Lemma finish_eq cfg h lp dr tr :
  exists line,
    finish cfg h lp dr tr
    = (tr ++ [EPrint line],
       Ret {| host := h; report_path := snd dr;
              log_path := if QUIET cfg then None else Some lp;
              detected := fst dr |}).
Proof. unfold finish, bind, print, emit, ret. eauto. Qed.

Lemma run_body_exc cfg w hd h o lp r files :
  exc_only (run_body cfg w hd h o lp r files).
Proof.
  intros tr tr' e E.
  destruct (run_body_check cfg w hd h o lp r files tr) as [(t & msg & H)|(t & H)].
  - rewrite H in E. inversion E. eauto.
  - rewrite H in E. revert E. apply exc_only_bind.
    + apply check_exc.
    + intro dr. apply exc_only_total. intro t0.
      destruct (finish_eq cfg h lp dr t0) as [line ->]. eauto.
Qed.

Lemma cleanup_eq w temp tr :
  cleanup w temp tr = (tr ++ cleanup_events w temp, Ret tt).
Proof.
  unfold cleanup, cleanup_events.
  destruct temp as [d|]; [destruct (truthy d && temp_isdir w)%bool|];
    unfold emit, ret; rewrite ?app_nil_r; reflexivity.
Qed.

(** The guarded part always returns a result: the one of the body, or the
    not-detected one of the handler; the [finally] events come last. *)
Lemma run_guarded_cases cfg w hd files rd tr :
  let body := run_body cfg w hd (host_of hd) (out_dir_of cfg w hd)
                (log_path_of cfg w hd) (snd rd) files in
  (exists tr1 r,
     body tr = (tr1, Ret r)
     /\ run_guarded cfg w hd files rd tr
        = (tr1 ++ cleanup_events w (fst rd), Ret r))
  \/ (exists tr1 msg,
        body tr = (tr1, Raise (Exception msg))
        /\ run_guarded cfg w hd files rd tr
           = ((tr1 ++ [EPrintErr (py "[ERROR] " ++ host_of hd ++ py ": " ++ msg)])
              ++ cleanup_events w (fst rd),
              Ret {| host := host_of hd; report_path := None;
                     log_path := if QUIET cfg then None
                                 else Some (log_path_of cfg w hd);
                     detected := false |})).
Proof.
  intro body. unfold run_guarded, try_finally, try_except. fold body.
  destruct (body tr) as [tr1 [r|e]] eqn:E.
  - left. exists tr1, r. rewrite cleanup_eq. auto.
  - right. destruct (run_body_exc _ _ _ _ _ _ _ _ _ _ _ E) as [msg ->].
    exists tr1, msg. unfold on_exception, bind, print_err, emit, ret.
    rewrite cleanup_eq. auto.
Qed.

Lemma run_for_host_pre cfg w hd entries :
  pre_ok cfg w -> rglob_out w = Ok entries ->
  run_for_host cfg w hd []
  = run_guarded cfg w hd (evtx_filter entries) (rules_of cfg w)
      (pre_events cfg w hd).
Proof.
  intros (Hmk & _ & Hrules) Hent.
  unfold run_for_host, makedirs, enumerate, resolve_rules, mkdtemp,
    rules_of, pre_events, bind, lift, emit, ret.
  rewrite Hmk, Hent. cbn [app].
  destruct (truthy (CHAINS_RULE_DIR cfg)) eqn:T; cbn [negb].
  - reflexivity.
  - destruct Hrules as [H|[d Hd]]; [discriminate H|].
    rewrite Hd. reflexivity.
Qed.

(** ** Traces only grow *)

Section Extends.
Context {A B : Type}.

Lemma extends_ret (a : A) : extends (ret a).
Proof. intro tr. exists []. simpl. now rewrite app_nil_r. Qed.

Lemma extends_lift (o : answer A) : extends (lift o).
Proof.
  intro tr. exists []. unfold lift. destruct o; simpl; now rewrite app_nil_r.
Qed.

Lemma extends_bind (m : M A) (k : A -> M B) :
  extends m -> (forall a, extends (k a)) -> extends (bind m k).
Proof.
  intros Hm Hk tr. unfold bind. destruct (Hm tr) as [e1 H1].
  destruct (m tr) as [tr1 [a|e]]; simpl in H1; subst tr1.
  - destruct (Hk a (tr ++ e1)) as [e2 H2]. exists (e1 ++ e2).
    now rewrite H2, app_assoc.
  - exists e1. reflexivity.
Qed.

Lemma extends_try_except (m : M A) h :
  extends m -> (forall msg, extends (h msg)) -> extends (try_except m h).
Proof.
  intros Hm Hh tr. unfold try_except. destruct (Hm tr) as [e1 H1].
  destruct (m tr) as [tr1 [a|[msg|c]]]; simpl in H1; subst tr1;
    try (exists e1; reflexivity).
  destruct (Hh msg (tr ++ e1)) as [e2 H2]. exists (e1 ++ e2).
  now rewrite H2, app_assoc.
Qed.
End Extends.

Lemma extends_emit ev : extends (emit ev).
Proof. intro tr. exists [ev]. reflexivity. Qed.

Lemma extends_get_trace : extends get_trace.
Proof. intro tr. exists []. simpl. now rewrite app_nil_r. Qed.

Lemma extends_eq {A} (m : M A) :
  (forall tr, exists evs o, m tr = (tr ++ evs, o)) -> extends m.
Proof. intros H tr. destruct (H tr) as (evs & o & ->). exists evs. reflexivity. Qed.

Ltac ext_step :=
  first
    [ apply extends_ret
    | apply extends_lift
    | apply extends_get_trace
    | apply extends_emit
    | apply extends_bind; [|intros]
    | apply extends_try_except; [|intros]
    | match goal with
      | |- extends (if ?b then _ else _) => destruct b
      | |- extends (match ?x with _ => _ end) => destruct x
      end ].

Lemma run_files_quiet_ext cfg w o r files i :
  extends (run_files_quiet cfg w o r i files).
Proof.
  revert i; induction files as [|f files IH]; intro i; cbn [run_files_quiet].
  - ext_step.
  - unfold subprocess_run. repeat ext_step. apply IH.
Qed.

Lemma run_files_verbose_ext cfg w o r files i :
  extends (run_files_verbose cfg w o r i files).
Proof.
  revert i; induction files as [|f files IH]; intro i; cbn [run_files_verbose].
  - ext_step.
  - unfold subprocess_run, write. repeat ext_step. apply IH.
Qed.

Lemma work_ext cfg w hd o lp r files : extends (work cfg w hd o lp r files).
Proof.
  unfold work.
  destruct (QUIET cfg).
  - destruct files; [ext_step|apply run_files_quiet_ext].
  - apply extends_bind; [unfold open_log; repeat ext_step|intros _].
    apply extends_bind; [|intros _].
    + apply extends_eq. intro tr. rewrite write_header_eq. eauto.
    + destruct files; [apply extends_emit|apply run_files_verbose_ext].
Qed.

Lemma check_ext cfg w o lp : extends (check cfg w o lp).
Proof.
  unfold check, sorted_glob, detect_log, read_log.
  repeat ext_step;
    try (apply extends_eq; intro tr; rewrite ?scan_csv_eq, ?scan_json_eq;
         eauto).
Qed.

Lemma run_body_ext cfg w hd h o lp r files :
  extends (run_body cfg w hd h o lp r files).
Proof.
  intro tr. rewrite run_body_split. revert tr.
  apply extends_bind; [apply work_ext|intros _].
  apply extends_bind; [apply check_ext|intro dr].
  apply extends_eq. intro tr. destruct (finish_eq cfg h lp dr tr) as [l ->].
  eauto.
Qed.

(** ** Host runner: exits *)

Lemma run_for_host_cases cfg w hd :
  pre_ok cfg w ->
  (exists tr1 r,
     try_body_outcome cfg w hd = (tr1, Ret r)
     /\ run_for_host cfg w hd []
        = (tr1 ++ cleanup_events w (fst (rules_of cfg w)), Ret r))
  \/ (exists tr1 msg,
        try_body_outcome cfg w hd = (tr1, Raise (Exception msg))
        /\ run_for_host cfg w hd []
           = ((tr1 ++ [EPrintErr (py "[ERROR] " ++ host_of hd ++ py ": " ++ msg)])
              ++ cleanup_events w (fst (rules_of cfg w)),
              Ret {| host := host_of hd; report_path := None;
                     log_path := if QUIET cfg then None
                                 else Some (log_path_of cfg w hd);
                     detected := false |})).
Proof.
  intros Hpre. pose proof Hpre as (_ & [entries Hent] & _).
  rewrite (run_for_host_pre cfg w hd entries Hpre Hent).
  unfold try_body_outcome. rewrite Hent.
  apply run_guarded_cases.
Qed.

Lemma try_body_keeps_pre cfg w hd :
  exists evs, fst (try_body_outcome cfg w hd) = pre_events cfg w hd ++ evs.
Proof. unfold try_body_outcome. apply run_body_ext. Qed.

(** C8. When no rules directory is configured and the temporary one has been
    created, every run of the host ends with its removal: whether the body
    returned or raised, the last effect is [rmtree] of that directory, and a
    result is returned whether or not the removal succeeds. *)
Theorem temp_rules_dir_removed cfg w hd d :
  truthy (CHAINS_RULE_DIR cfg) = false ->
  makedirs_out w = Ok tt ->
  (exists entries, rglob_out w = Ok entries) ->
  mkdtemp_out w = Ok d ->
  truthy d = true ->
  temp_isdir w = true ->
  exists tr r,
    run_for_host cfg w hd [] = (tr ++ [ERmtree d (rmtree_ok w)], Ret r)
    /\ In (EMkdtemp d) tr
    /\ (forall t e, try_body_outcome cfg w hd = (t, Raise e) ->
                    detected r = false /\ report_path r = None).
Proof.
  intros Hcfg Hmk Hent Htmp Hd Hdir.
  assert (Hpre : pre_ok cfg w) by (repeat split; eauto).
  assert (Hc : cleanup_events w (fst (rules_of cfg w)) = [ERmtree d (rmtree_ok w)]).
  { unfold rules_of, cleanup_events. rewrite Hcfg, Htmp. cbn [fst].
    now rewrite Hd, Hdir. }
  assert (P : In (EMkdtemp d) (pre_events cfg w hd)).
  { unfold pre_events. rewrite Hcfg, Htmp. cbn. auto. }
  destruct (try_body_keeps_pre cfg w hd) as [evs Hevs].
  destruct (run_for_host_cases cfg w hd Hpre)
    as [(tr1 & r & Hb & Hr)|(tr1 & msg & Hb & Hr)];
    rewrite Hb in Hevs; cbn [fst] in Hevs; rewrite Hr, Hc.
  - exists tr1, r. split; [reflexivity|]. split.
    + rewrite Hevs. apply in_or_app. now left.
    + intros t e E. rewrite Hb in E. discriminate E.
  - eexists. eexists. split; [reflexivity|]. split.
    + rewrite Hevs. apply in_or_app. left. apply in_or_app. now left.
    + intros. split; reflexivity.
Qed.

Lemma temp_rules_dir_removed_witness :
  exists tr r,
    run_for_host Sample.cfg Sample.world_no_scanner Sample.host_a []
    = (tr ++ [ERmtree (py "/tmp/chainsaw_rules_x") true], Ret r)
    /\ In (EMkdtemp (py "/tmp/chainsaw_rules_x")) tr
    /\ (forall t e,
          try_body_outcome Sample.cfg Sample.world_no_scanner Sample.host_a
          = (t, Raise e) ->
          detected r = false /\ report_path r = None).
Proof.
  apply (temp_rules_dir_removed Sample.cfg Sample.world_no_scanner
           Sample.host_a (py "/tmp/chainsaw_rules_x"));
    try reflexivity.
  eexists. reflexivity.
Defined.

(** What a returning [try] body has done: the work, the check, then the
    status line; the result is built from the pair of the check. *)
Lemma run_body_ret_inv cfg w hd h o lp r files tr tr1 res :
  run_body cfg w hd h o lp r files tr = (tr1, Ret res) ->
  exists t0 t1 dr line,
    work cfg w hd o lp r files tr = (t0, Ret tt)
    /\ check cfg w o lp t0 = (t1, Ret dr)
    /\ tr1 = t1 ++ [EPrint line]
    /\ res = {| host := h; report_path := snd dr;
                log_path := if QUIET cfg then None else Some lp;
                detected := fst dr |}.
Proof.
  rewrite run_body_split. intro H.
  apply bind_inv_Ret in H. destruct H as (t0 & [] & Hw & H).
  apply bind_inv_Ret in H. destruct H as (t1 & dr & Hc & H).
  destruct (finish_eq cfg h lp dr t1) as [line E]. rewrite E in H.
  inversion H. subst. exists t0, t1, dr, line. auto.
Qed.

Lemma try_body_host cfg w hd t r :
  try_body_outcome cfg w hd = (t, Ret r) -> host r = host_of hd.
Proof.
  unfold try_body_outcome. intro H. apply run_body_ret_inv in H.
  destruct H as (t0 & t1 & dr & line & _ & _ & _ & ->). reflexivity.
Qed.

(** One host whose preliminary steps succeed always yields a result; when
    its [try] body raised, the result is the not-detected one. *)
Lemma run_for_host_isolated cfg w hd :
  pre_ok cfg w ->
  exists tr r,
    run_for_host cfg w hd [] = (tr, Ret r)
    /\ host r = host_of hd
    /\ (forall t e, try_body_outcome cfg w hd = (t, Raise e) ->
                    detected r = false /\ report_path r = None).
Proof.
  intro Hpre.
  destruct (run_for_host_cases cfg w hd Hpre)
    as [(tr1 & r & Hb & Hr)|(tr1 & msg & Hb & Hr)]; rewrite Hr.
  - eexists. exists r. split; [reflexivity|]. split.
    + eapply try_body_host; eauto.
    + intros t e E. rewrite Hb in E. discriminate E.
  - eexists. eexists. split; [reflexivity|]. cbn. auto.
Qed.

(** C1 (amended). Provided the steps that precede the [try] (creating the
    output directory, enumerating the archives, creating the temporary rules
    directory) succeed for every host, each host yields a result, whatever
    else fails, and the Orchestrator collects one result per host; a host
    whose [try] body raised (log cannot be opened, a SCANNER process cannot
    be started, the output directory cannot be listed) is reported with
    detected = false and no report path. *)
Theorem host_failures_isolated cfg mw order tr :
  (forall hd, In hd order -> pre_ok cfg (host_world mw hd)) ->
  exists tr' results,
    collect cfg mw order [] tr = (tr', Ret results)
    /\ Forall2
         (fun hd r =>
            host r = host_of hd
            /\ (forall t e,
                  try_body_outcome cfg (host_world mw hd) hd = (t, Raise e) ->
                  detected r = false /\ report_path r = None))
         order results.
Proof.
  intro Hpre.
  assert (G : forall acc tr,
    exists tr' results,
      collect cfg mw order acc tr = (tr', Ret (acc ++ results))
      /\ Forall2
           (fun hd r =>
              host r = host_of hd
              /\ (forall t e,
                    try_body_outcome cfg (host_world mw hd) hd = (t, Raise e) ->
                    detected r = false /\ report_path r = None))
           order results).
  { induction order as [|hd order IH]; intros acc tr0.
    - exists tr0, []. cbn. rewrite app_nil_r. split; [reflexivity|constructor].
    - destruct (run_for_host_isolated cfg (host_world mw hd) hd) as
        (t & r & Hr & Hh & Hf); [apply Hpre; now left|].
      destruct (IH (fun hd' H => Hpre hd' (or_intror H)) (acc ++ [r])
                   (tr0 ++ [EPrint (py "[" ++ status_of (detected r) ++ py "] "
                                    ++ host r ++ py " -> "
                                    ++ repr_path (report_path r))]))
        as (tr' & results & Hc & HF).
      exists tr', (r :: results). split.
      + cbn [collect]. unfold bind at 1. unfold future_result. rewrite Hr.
        cbn [snd]. unfold bind at 1. unfold print, emit.
        rewrite Hc, <- app_assoc. reflexivity.
      + constructor; auto. }
  apply (G [] tr).
Qed.

Lemma host_failures_isolated_witness :
  exists tr' results,
    collect Sample.cfg Sample.mw_two_hosts [Sample.host_b; Sample.host_a] [] []
    = (tr', Ret results)
    /\ Forall2
         (fun hd r =>
            host r = host_of hd
            /\ (forall t e,
                  try_body_outcome Sample.cfg
                    (host_world Sample.mw_two_hosts hd) hd = (t, Raise e) ->
                  detected r = false /\ report_path r = None))
         [Sample.host_b; Sample.host_a] results.
Proof.
  apply (host_failures_isolated Sample.cfg Sample.mw_two_hosts
           [Sample.host_b; Sample.host_a] []).
  intros hd [<-|[<-|[]]]; (split; [reflexivity|split; [eexists; reflexivity|]]);
    right; eexists; reflexivity.
Defined.

(** C1, as stated, fails in two ways.  An exception of the enumeration is
    raised before the [try]: it escapes [run_for_host], the host has no
    result, and [fut.result()] raises it again in [main], which ends without
    a summary.  An exception while reading one artifact is swallowed by the
    detection loop, which goes on: the host is still reported as detected. *)
Lemma host_exception_not_isolated :
  ~ (exists tr r,
       run_for_host Sample.cfg Sample.world_enum_fails Sample.host_a []
       = (tr, Ret r))
  /\ snd (main Sample.cfg Sample.mw_enum_fails [])
     = Raise (Exception (py "[Errno 5] Input/output error"))
  /\ (exists tr r,
        run_for_host Sample.cfg Sample.world_two_csv Sample.host_a []
        = (tr, Ret r)
        /\ In (ERead (py "/workspace/reports/HOST-A-20240101000000/a.csv")) tr
        /\ ~ (detected r = false /\ report_path r = None)).
Proof.
  split; [|split].
  - intros (tr & r & H). vm_compute in H. discriminate H.
  - vm_compute. reflexivity.
  - eexists. eexists. split; [vm_compute; reflexivity|]. split.
    + vm_compute. auto 10.
    + cbn. intros [H _]. discriminate H.
Qed.

(** ** Enumeration *)

Lemma rfind_Some c s i :
  rfind c s = Some i ->
  s = firstn i s ++ c :: skipn (S i) s /\ ~ In c (skipn (S i) s)
  /\ i < List.length s.
Proof.
  revert i; induction s as [|x s IH]; intro i; cbn [rfind].
  - discriminate.
  - destruct (rfind c s) as [j|] eqn:E.
    + intro H. inversion H; subst i. destruct (IH j eq_refl) as (H1 & H2 & H3).
      cbn [firstn skipn app List.length]. repeat split.
      * cbn [skipn] in H1. now rewrite <- H1.
      * exact H2.
      * lia.
    + destruct (N.eqb x c) eqn:Ex; [|discriminate].
      intro H. inversion H; subst i. apply N.eqb_eq in Ex. subst x.
      cbn [firstn skipn app List.length]. repeat split; try lia.
      clear IH H. induction s as [|y s IHs]; [auto|].
      cbn [rfind] in E. destruct (rfind c s); [discriminate|].
      destruct (N.eqb y c) eqn:Ey; [discriminate|].
      apply N.eqb_neq in Ey. intros [H|H]; [congruence|]. now apply IHs.
Qed.





Lemma silent_eq {A} P (m : M A) :
  (forall tr, exists evs o, m tr = (tr ++ evs, o) /\ filter P evs = []) ->
  silent P m.
Proof.
  intros H tr. destruct (H tr) as (evs & o & -> & E). cbn [fst].
  now rewrite filter_app, E, app_nil_r.
Qed.

Lemma filter_reads_none P out_dir (l : list Artifact) :
  P (ERead []) = false -> (forall p q, P (ERead p) = P (ERead q)) ->
  filter P (map (fun a => ERead (artifact_path out_dir a)) l) = [].
Proof.
  intros H0 Hall. induction l as [|a l IH]; [reflexivity|].
  cbn [map filter]. rewrite (Hall _ []), H0. exact IH.
Qed.

(** The detection check and the status line start no process and send no
    mail. *)
Lemma check_finish_silent P cfg w h o lp :
  (forall p, P (ERead p) = false) ->
  (forall d p, P (EGlob d p) = false) ->
  (forall t, P (EPrint t) = false) ->
  silent P (bind (check cfg w o lp) (finish cfg h lp)).
Proof.
  intros Hread Hglob Hprint.
  apply silent_bind.
  - unfold check.
    destruct (eqb (CHAINS_FORMAT cfg) (py "csv")); [|
      destruct (eqb (CHAINS_FORMAT cfg) (py "json")); [|destruct (QUIET cfg)]].
    + unfold sorted_glob. apply silent_bind; [|intro files].
      * apply silent_bind; [apply silent_lift|intros].
        apply silent_bind; [apply silent_emit, Hglob|intros; apply silent_ret].
      * apply silent_eq. intro tr. rewrite scan_csv_eq. do 2 eexists.
        split; [reflexivity|]. apply filter_reads_none; auto.
        intros; now rewrite !Hread.
    + unfold sorted_glob. apply silent_bind; [|intro files].
      * apply silent_bind; [apply silent_lift|intros].
        apply silent_bind; [apply silent_emit, Hglob|intros; apply silent_ret].
      * apply silent_eq. intro tr. rewrite scan_json_eq. do 2 eexists.
        split; [reflexivity|]. apply filter_reads_none; auto.
        intros; now rewrite !Hread.
    + apply silent_ret.
    + unfold detect_log, read_log.
      apply silent_bind; [|intros; apply silent_ret].
      apply silent_try_except; [|intros; apply silent_ret].
      apply silent_bind; [|intros; apply silent_ret].
      apply silent_bind; [apply silent_emit, Hread|intros].
      apply silent_bind; [apply silent_lift|intros].
      apply silent_bind; [apply silent_get_trace|intros; apply silent_ret].
  - intro dr. apply silent_eq. intro tr.
    destruct (finish_eq cfg h lp dr tr) as [line ->]. do 2 eexists.
    split; [reflexivity|]. cbn [filter]. now rewrite Hprint.
Qed.








Lemma last_build cfg f o r q : last (build_hunt_cmd_for_file cfg f o r q) [] = f.
Proof.
  rewrite build_hunt_cmd_shape. rewrite !app_assoc. apply last_last.
Qed.





(** ** Sorting by name *)







(** ** Detection from csv artifacts *)














(** ** Detection from the log *)







Lemma run_for_host_ret_pre cfg w hd tr r :
  run_for_host cfg w hd [] = (tr, Ret r) -> pre_ok cfg w.
Proof.
  unfold run_for_host, makedirs, enumerate, resolve_rules, mkdtemp, pre_ok,
    bind, lift, emit, ret.
  destruct (makedirs_out w) as [[]|m1]; [|discriminate].
  destruct (rglob_out w) as [entries|m2]; [|discriminate].
  destruct (truthy (CHAINS_RULE_DIR cfg)); cbn [negb].
  - intros _. split; [reflexivity|]. split; [eauto|auto].
  - destruct (mkdtemp_out w) as [d|m3]; [|discriminate].
    intros _. split; [reflexivity|]. split; [eauto|]. right. eauto.
Qed.




(** ** Hosts without archives *)







Lemma filter_none {A} (f : A -> bool) l :
  (forall a, In a l -> f a = false) -> filter f l = [].
Proof.
  induction l as [|a l IH]; intro H; [reflexivity|].
  cbn [filter]. rewrite (H a (or_introl eq_refl)).
  apply IH. intros b Hb. apply H. now right.
Qed.






(** ** The result invariant *)





(** ** Notification *)

Lemma mails_of_app a b : mails_of (a ++ b) = mails_of a ++ mails_of b.
Proof.
  induction a as [|e a IH]; [reflexivity|].
  destruct e; cbn [app mails_of]; rewrite IH; reflexivity.
Qed.







(** * Further properties *)

(** ** Which processes a host run starts *)

Lemma started_prefix cfg w o r q files :
  forall i, exists rest, files = started cfg w o r q i files ++ rest.
Proof.
  induction files as [|f files IH]; intro i; cbn [started].
  - now exists [].
  - destruct (run_out w i (build_hunt_cmd_for_file cfg f o r q)).
    + destruct (IH (S i)) as [rest E]. exists rest. cbn [app]. now rewrite <- E.
    + now exists (f :: files).
Qed.












(** ** What the [try] body does not do *)

Lemma run_files_quiet_silent P cfg w o r files :
  (forall a, P (ERun a) = false) ->
  forall i, silent P (run_files_quiet cfg w o r i files).
Proof.
  intro Hrun. induction files as [|f files IH]; intro i; cbn [run_files_quiet].
  - apply silent_ret.
  - apply silent_bind; [|intros _; apply IH].
    unfold subprocess_run.
    apply silent_bind; [apply silent_lift|intros out].
    apply silent_bind; [apply silent_emit, Hrun|intros _; apply silent_ret].
Qed.

Lemma run_files_verbose_silent P cfg w o r files :
  (forall a, P (ERun a) = false) ->
  (forall t, P (EWrite t) = false) ->
  (forall t, P (EChildOut t) = false) ->
  forall i, silent P (run_files_verbose cfg w o r i files).
Proof.
  intros Hrun Hwrite Hout.
  induction files as [|f files IH]; intro i; cbn [run_files_verbose].
  - apply silent_ret.
  - apply silent_bind; [unfold write; apply silent_emit, Hwrite|intros _].
    apply silent_bind; [|intros _; apply IH].
    unfold subprocess_run.
    apply silent_bind; [apply silent_lift|intros out].
    apply silent_bind; [apply silent_emit, Hrun|intros _].
    apply silent_emit, Hout.
Qed.

Lemma filter_writes_none P l :
  (forall t, P (EWrite t) = false) -> filter P (map EWrite l) = [].
Proof.
  intro H. induction l as [|t l IH]; [reflexivity|].
  cbn [map filter]. now rewrite H.
Qed.

Lemma work_silent P cfg w hd o lp r files :
  body_blind P -> silent P (work cfg w hd o lp r files).
Proof.
  intros (Hopen & Hwrite & Hrun & Hout & _). unfold work.
  destruct (QUIET cfg).
  - destruct files; [apply silent_ret|now apply run_files_quiet_silent].
  - apply silent_bind; [|intros _].
    { unfold open_log. apply silent_bind; [apply silent_lift|intros _].
      apply silent_emit, Hopen. }
    apply silent_bind; [|intros _].
    { apply silent_eq. intro tr. rewrite write_header_eq. do 2 eexists.
      split; [reflexivity|]. now apply filter_writes_none. }
    destruct files; [unfold write; apply silent_emit, Hwrite|].
    now apply run_files_verbose_silent.
Qed.

(** The [try] body performs none of the events outside its own kinds. *)
Lemma run_body_silent P cfg w hd h o lp r files :
  body_blind P -> silent P (run_body cfg w hd h o lp r files).
Proof.
  intros HP tr. rewrite run_body_split. revert tr.
  apply silent_bind; [now apply work_silent|intros _].
  destruct HP as (_ & _ & _ & _ & Hglob & Hread & Hprint).
  now apply check_finish_silent.
Qed.

Lemma try_body_silent P cfg w hd :
  body_blind P ->
  filter P (fst (try_body_outcome cfg w hd)) = filter P (pre_events cfg w hd).
Proof. intro HP. unfold try_body_outcome. now apply run_body_silent. Qed.

(** The trace of a run whose preliminary steps succeed: what precedes the
    [try], what the body and possibly the handler add, and the [finally]
    events. *)
Lemma run_for_host_trace cfg w hd tr o :
  pre_ok cfg w -> run_for_host cfg w hd [] = (tr, o) ->
  exists mid err,
    tr = (pre_events cfg w hd ++ mid) ++ err
         ++ cleanup_events w (fst (rules_of cfg w))
    /\ pre_events cfg w hd ++ mid = fst (try_body_outcome cfg w hd)
    /\ (err = [] \/ exists t, err = [EPrintErr t]).
Proof.
  intros Hpre H.
  destruct (try_body_keeps_pre cfg w hd) as [mid Hmid].
  destruct (run_for_host_cases cfg w hd Hpre)
    as [(tr1 & r1 & Hb & Hr)|(tr1 & msg & Hb & Hr)];
    rewrite Hr in H; rewrite Hb in Hmid; cbn [fst] in Hmid; subst tr1.
  - exists mid, []. split; [|split].
    + cbn [app]. congruence.
    + now rewrite Hb.
    + now left.
  - exists mid, [EPrintErr (py "[ERROR] " ++ host_of hd ++ py ": " ++ msg)].
    split; [|split].
    + rewrite <- app_assoc in H. cbn [app] in *. rewrite <- app_assoc.
      injection H as <- _. now rewrite <- !app_assoc.
    + now rewrite Hb.
    + right. eauto.
Qed.

(** A run that raises has failed in one of the three steps before the
    [try], and has done nothing but, at most, create the output directory. *)
Lemma run_for_host_raise_inv cfg w hd tr e :
  run_for_host cfg w hd [] = (tr, Raise e) ->
  exists msg,
    e = Exception msg
    /\ ((makedirs_out w = Fails msg /\ tr = [])
        \/ (makedirs_out w = Ok tt /\ rglob_out w = Fails msg
            /\ tr = [EMakedirs (out_dir_of cfg w hd)])
        \/ (makedirs_out w = Ok tt /\ (exists entries, rglob_out w = Ok entries)
            /\ truthy (CHAINS_RULE_DIR cfg) = false
            /\ mkdtemp_out w = Fails msg
            /\ tr = [EMakedirs (out_dir_of cfg w hd)])).
Proof.
  intro H.
  destruct (makedirs_out w) as [[]|m1] eqn:E1.
  - destruct (rglob_out w) as [entries|m2] eqn:E2.
    + destruct (truthy (CHAINS_RULE_DIR cfg)) eqn:T.
      * exfalso. assert (Hpre : pre_ok cfg w) by (repeat split; eauto).
        destruct (run_for_host_isolated cfg w hd Hpre) as (t & r & Hr & _).
        congruence.
      * destruct (mkdtemp_out w) as [d|m3] eqn:E3.
        -- exfalso. assert (Hpre : pre_ok cfg w) by (repeat split; eauto).
           destruct (run_for_host_isolated cfg w hd Hpre) as (t & r & Hr & _).
           congruence.
        -- unfold run_for_host, makedirs, enumerate, resolve_rules, mkdtemp,
             bind, lift, emit, ret in H.
           rewrite E1, E2, T, E3 in H. cbn in H. injection H as <- <-.
           exists m3. split; [reflexivity|]. right. right. eauto 10.
    + unfold run_for_host, makedirs, enumerate, bind, lift, emit in H.
      rewrite E1, E2 in H. cbn in H. injection H as <- <-.
      exists m2. split; [reflexivity|]. right. left. auto.
  - unfold run_for_host, makedirs, bind, lift in H. rewrite E1 in H.
    injection H as <- <-. exists m1. split; [reflexivity|]. now left.
Qed.

Lemma filter_pre_events P cfg w hd :
  (forall p, P (EMakedirs p) = false) -> (forall p, P (EMkdtemp p) = false) ->
  filter P (pre_events cfg w hd) = [].
Proof.
  intros H1 H2. unfold pre_events. cbn [filter]. rewrite H1.
  destruct (truthy (CHAINS_RULE_DIR cfg)); [reflexivity|].
  destruct (mkdtemp_out w); cbn [filter]; rewrite ?H2; reflexivity.
Qed.

Lemma in_filter_nil {A} (P : A -> bool) l x :
  filter P l = [] -> In x l -> P x = true -> False.
Proof.
  intros E Hin HP.
  assert (H : In x (filter P l)) by (apply filter_In; auto).
  rewrite E in H. destruct H.
Qed.

(** X2. The only directory a host run ever removes is the temporary rules
    directory that it created itself: an [rmtree] occurs only when no rules
    directory is configured, and then on the path that [mkdtemp] returned in
    this run.  A configured rules directory is never removed. *)
Theorem only_own_temp_dir_removed cfg w hd tr o p b :
  run_for_host cfg w hd [] = (tr, o) -> In (ERmtree p b) tr ->
  truthy (CHAINS_RULE_DIR cfg) = false
  /\ mkdtemp_out w = Ok p
  /\ In (EMkdtemp p) tr.
Proof.
  intros H Hin.
  assert (Hpre : pre_ok cfg w).
  { destruct o as [r|e]; [eapply run_for_host_ret_pre; eauto|].
    exfalso. apply run_for_host_raise_inv in H.
    destruct H as (msg & _ & [[_ ->]|[(_ & _ & ->)|(_ & _ & _ & _ & ->)]]);
      cbn in Hin; intuition discriminate. }
  destruct (run_for_host_trace cfg w hd tr o Hpre H)
    as (mid & err & Htr & Hmid & Herr).
  assert (Hbody : filter is_rmtree (pre_events cfg w hd ++ mid) = []).
  { rewrite Hmid, try_body_silent.
    - apply filter_pre_events; reflexivity.
    - repeat split; reflexivity. }
  rewrite Htr in Hin. apply in_app_or in Hin. destruct Hin as [Hin|Hin].
  { exfalso. eapply in_filter_nil; eauto. }
  apply in_app_or in Hin. destruct Hin as [Hin|Hin].
  { exfalso. destruct Herr as [->|[t ->]]; cbn in Hin; intuition discriminate. }
  unfold cleanup_events, rules_of in Hin.
  destruct (truthy (CHAINS_RULE_DIR cfg)) eqn:T; [destruct Hin|].
  destruct (mkdtemp_out w) as [d|m] eqn:E; cbn [fst] in Hin; [|destruct Hin].
  destruct (truthy d && temp_isdir w)%bool; [|destruct Hin].
  destruct Hin as [Hin|[]]. injection Hin as -> _.
  split; [reflexivity|]. split; [reflexivity|].
  rewrite Htr. apply in_or_app. left. apply in_or_app. left.
  unfold pre_events. rewrite T, E. cbn. auto.
Qed.

Lemma only_own_temp_dir_removed_witness :
  truthy (CHAINS_RULE_DIR Sample.cfg) = false
  /\ mkdtemp_out Sample.world_two_csv = Ok (py "/tmp/chainsaw_rules_x")
  /\ In (EMkdtemp (py "/tmp/chainsaw_rules_x"))
        (fst (run_for_host Sample.cfg Sample.world_two_csv Sample.host_a [])).
Proof.
  apply (only_own_temp_dir_removed Sample.cfg Sample.world_two_csv Sample.host_a
           (fst (run_for_host Sample.cfg Sample.world_two_csv Sample.host_a []))
           (snd (run_for_host Sample.cfg Sample.world_two_csv Sample.host_a []))
           (py "/tmp/chainsaw_rules_x") false).
  - apply surjective_pairing.
  - vm_compute. auto 20.
Defined.

(** X3. [run_for_host] returns a result exactly when creating the output
    directory, traversing the host directory and (if needed) creating the
    temporary rules directory all succeed.  Otherwise it raises the exception
    of the first of these steps that failed, having started no process, read
    nothing and created no temporary directory. *)
Theorem run_for_host_raises_only_before_try cfg w hd :
  ((exists tr r, run_for_host cfg w hd [] = (tr, Ret r)) <-> pre_ok cfg w)
  /\ (forall tr e,
        run_for_host cfg w hd [] = (tr, Raise e) ->
        exists msg,
          e = Exception msg
          /\ (makedirs_out w = Fails msg
              \/ (makedirs_out w = Ok tt /\ rglob_out w = Fails msg)
              \/ (makedirs_out w = Ok tt /\ truthy (CHAINS_RULE_DIR cfg) = false
                  /\ mkdtemp_out w = Fails msg))
          /\ runs_of tr = [] /\ reads_of tr = []
          /\ filter is_mkdtemp tr = [] /\ filter is_rmtree tr = []).
Proof.
  split.
  - split.
    + intros (tr & r & H). eapply run_for_host_ret_pre; eauto.
    + intro Hpre. destruct (run_for_host_isolated cfg w hd Hpre)
        as (tr & r & H & _). eauto.
  - intros tr e H. apply run_for_host_raise_inv in H.
    destruct H as (msg & -> & [[H1 ->]|[(H1 & H2 & ->)|(H1 & _ & H3 & H4 & ->)]]);
      exists msg; (split; [reflexivity|]); (split; [|repeat split; reflexivity]);
      auto.
Qed.

Lemma run_for_host_raises_only_before_try_witness :
  exists tr msg,
    run_for_host Sample.cfg Sample.world_enum_fails Sample.host_a []
    = (tr, Raise (Exception msg))
    /\ rglob_out Sample.world_enum_fails = Fails msg
    /\ runs_of tr = [] /\ filter is_mkdtemp tr = [].
Proof.
  destruct (run_for_host_raises_only_before_try Sample.cfg
              Sample.world_enum_fails Sample.host_a) as [_ H].
  destruct (H [EMakedirs (out_dir_of Sample.cfg Sample.world_enum_fails
                            Sample.host_a)]
              (Exception (py "[Errno 5] Input/output error")))
    as (msg & E & _ & Hruns & _ & Hmk & _).
  - vm_compute. reflexivity.
  - eexists. exists (py "[Errno 5] Input/output error").
    split; [vm_compute; reflexivity|]. split; [reflexivity|].
    split; [exact Hruns|exact Hmk].
Defined.

Lemma run_body_silent_quiet P cfg w hd h o lp r files :
  QUIET cfg = true ->
  (forall a, P (ERun a) = false) ->
  (forall d p, P (EGlob d p) = false) ->
  (forall p, P (ERead p) = false) ->
  (forall t, P (EPrint t) = false) ->
  silent P (run_body cfg w hd h o lp r files).
Proof.
  intros Q Hrun Hglob Hread Hprint tr. rewrite run_body_split. revert tr.
  apply silent_bind; [|intros _; now apply check_finish_silent].
  unfold work. rewrite Q.
  destruct files; [apply silent_ret|now apply run_files_quiet_silent].
Qed.

Lemma run_for_host_fields cfg w hd tr r :
  run_for_host cfg w hd [] = (tr, Ret r) ->
  host r = host_of hd
  /\ log_path r = if QUIET cfg then None else Some (log_path_of cfg w hd).
Proof.
  intro H. pose proof (run_for_host_ret_pre _ _ _ _ _ H) as Hpre.
  destruct (run_for_host_cases cfg w hd Hpre)
    as [(tr1 & r1 & Hb & Hr)|(tr1 & msg & Hb & Hr)];
    rewrite Hr in H; injection H as _ <-.
  - unfold try_body_outcome in Hb. apply run_body_ret_inv in Hb.
    destruct Hb as (t0 & t1 & dr & line & _ & _ & _ & ->). auto.
  - auto.
Qed.

(** X4. In quiet mode no log file is produced: a host run neither opens nor
    writes a log, no process output is redirected into one, and every result
    carries no log path. *)
Theorem quiet_mode_leaves_no_log cfg w hd tr o :
  QUIET cfg = true ->
  run_for_host cfg w hd [] = (tr, o) ->
  filter is_log_event tr = []
  /\ log_content tr = []
  /\ (forall r, o = Ret r -> log_path r = None).
Proof.
  intros Q H.
  assert (Hlog : forall t, filter is_log_event t = [] -> log_content t = []).
  { induction t as [|e t IH]; [reflexivity|].
    destruct e; cbn [filter is_log_event log_content]; try discriminate; auto. }
  assert (Hf : filter is_log_event tr = []).
  { destruct o as [r|e].
    - pose proof (run_for_host_ret_pre _ _ _ _ _ H) as Hpre.
      destruct (run_for_host_trace cfg w hd tr _ Hpre H)
        as (mid & err & -> & Hmid & Herr).
      rewrite (filter_app _ (pre_events cfg w hd ++ mid)), Hmid, filter_app.
      unfold try_body_outcome.
      rewrite run_body_silent_quiet by (auto; reflexivity).
      rewrite filter_pre_events by reflexivity.
      destruct Herr as [->|[t ->]]; cbn [filter is_log_event app];
        unfold cleanup_events; destruct (fst (rules_of cfg w)) as [d|];
        try destruct (truthy d && temp_isdir w)%bool; reflexivity.
    - apply run_for_host_raise_inv in H.
      destruct H as (msg & _ & [[_ ->]|[(_ & _ & ->)|(_ & _ & _ & _ & ->)]]);
        reflexivity. }
  split; [exact Hf|]. split; [now apply Hlog|].
  intros r ->. apply run_for_host_fields in H. destruct H as [_ H].
  now rewrite Q in H.
Qed.

Lemma quiet_mode_leaves_no_log_witness :
  filter is_log_event
    (fst (run_for_host Sample.cfg Sample.world_two_csv Sample.host_a [])) = []
  /\ log_content
       (fst (run_for_host Sample.cfg Sample.world_two_csv Sample.host_a [])) = []
  /\ (forall r,
        snd (run_for_host Sample.cfg Sample.world_two_csv Sample.host_a [])
        = Ret r -> log_path r = None).
Proof.
  apply (quiet_mode_leaves_no_log Sample.cfg Sample.world_two_csv Sample.host_a).
  - reflexivity.
  - apply surjective_pairing.
Defined.

(** ** Host names and output paths *)

Lemma rfind_None_notin c s : rfind c s = None -> ~ In c s.
Proof.
  induction s as [|x s IH]; cbn [rfind]; [auto|].
  destruct (rfind c s); [discriminate|].
  destruct (N.eqb x c) eqn:Ex; [discriminate|]. apply N.eqb_neq in Ex.
  intros _ [H|H]; [congruence|]. now apply IH.
Qed.

Lemma basename_no_slash p : ~ In 47%N (basename p).
Proof.
  unfold basename. destruct (rfind 47%N p) as [i|] eqn:E.
  - apply rfind_Some in E. tauto.
  - now apply rfind_None_notin.
Qed.

Lemma rstrip_char_repeat c s n :
  rstrip_char c (s ++ repeat c n) = rstrip_char c s.
Proof.
  unfold rstrip_char. f_equal. rewrite rev_app_distr.
  induction n as [|n IH]; [reflexivity|].
  replace (rev (repeat c (S n))) with (c :: rev (repeat c n)).
  - cbn [app]. now rewrite N.eqb_refl.
  - clear. induction n as [|n IH]; [reflexivity|].
    cbn [repeat rev] in *. rewrite <- IH. cbn [app]. now rewrite IH.
Qed.

Lemma py_slash : py "/" = [47%N].
Proof. reflexivity. Qed.

Lemma not_startswith_slash b :
  (forall c t, b = c :: t -> c <> 47%N) -> startswith (py "/") b = false.
Proof.
  intro H. rewrite py_slash. destruct b as [|c t]; [reflexivity|].
  cbn [startswith]. destruct (N.eqb 47 c) eqn:E; [|reflexivity].
  apply N.eqb_eq in E. exfalso. now apply (H c t eq_refl).
Qed.

(** [os.path.join] with a relative second component keeps the first one as a
    prefix. *)
Lemma path_join_relative a b :
  (forall c t, b = c :: t -> c <> 47%N) ->
  exists sep, (sep = [] \/ sep = py "/") /\ path_join a b = a ++ sep ++ b.
Proof.
  intro H. unfold path_join. rewrite (not_startswith_slash b H).
  destruct (negb (truthy a) || endswith (py "/") a)%bool.
  - exists []. auto.
  - exists (py "/"). auto.
Qed.

Lemma endswith_slash_last a c :
  c <> 47%N -> endswith (py "/") (a ++ [c]) = false.
Proof.
  intro H. unfold endswith. rewrite py_slash, rev_app_distr.
  cbn [rev app startswith].
  destruct (N.eqb 47 c) eqn:E; [|reflexivity].
  apply N.eqb_eq in E. congruence.
Qed.

(** X5. Every result names its host by the base name of the host directory:
    trailing slashes of the directory do not matter and the name never
    contains a slash; the result carries the path of the log exactly in
    verbose mode. *)
Theorem result_names_host cfg w hd tr r :
  run_for_host cfg w hd [] = (tr, Ret r) ->
  host r = basename (rstrip_char 47%N hd)
  /\ ~ In 47%N (host r)
  /\ (forall n, host_of (hd ++ repeat 47%N n) = host r)
  /\ log_path r = (if QUIET cfg then None else Some (log_path_of cfg w hd)).
Proof.
  intro H. apply run_for_host_fields in H. destruct H as [Hh Hl].
  split; [exact Hh|]. split; [|split; [|exact Hl]].
  - rewrite Hh. apply basename_no_slash.
  - intro n. rewrite Hh. unfold host_of. now rewrite rstrip_char_repeat.
Qed.

Lemma result_names_host_witness :
  exists tr r,
    run_for_host Sample.cfg_log Sample.world_log_hit
      (Sample.host_a ++ py "//") [] = (tr, Ret r)
    /\ host r = py "HOST-A"
    /\ log_path r
       = Some (py "/workspace/reports/HOST-A-20240101000000/HOST-A-20240101000000.log").
Proof.
  destruct (result_names_host Sample.cfg_log Sample.world_log_hit
              (Sample.host_a ++ py "//")
              (fst (run_for_host Sample.cfg_log Sample.world_log_hit
                      (Sample.host_a ++ py "//") []))
              {| host := py "HOST-A"; report_path := None;
                 log_path := Some (py "/workspace/reports/HOST-A-20240101000000/HOST-A-20240101000000.log");
                 detected := true |})
    as (Hh & _ & _ & Hl).
  - vm_compute. reflexivity.
  - do 2 eexists. split; [vm_compute; reflexivity|]. split; reflexivity.
Defined.

(** X6. The output directory of a host lies directly under REPORTS_DIR: its
    path is REPORTS_DIR, a separator if one is needed, and the slash-free
    name host-timestamp, whatever the host directory is called; with a
    slash-free timestamp the log file lies directly inside that output
    directory. *)
Theorem output_paths_under_reports_dir cfg w hd :
  (exists sep,
     (sep = [] \/ sep = py "/")
     /\ out_dir_of cfg w hd
        = REPORTS_DIR cfg ++ sep ++ host_of hd ++ py "-" ++ now_stamp w)
  /\ ~ In 47%N (host_of hd)
  /\ (~ In 47%N (now_stamp w) ->
      log_path_of cfg w hd
      = out_dir_of cfg w hd ++ py "/" ++ host_of hd ++ py "-" ++ now_stamp w
        ++ py ".log").
Proof.
  assert (Hh : ~ In 47%N (host_of hd)) by apply basename_no_slash.
  assert (Hrel : forall rest c t,
            host_of hd ++ py "-" ++ rest = c :: t -> c <> 47%N).
  { intros rest c t E. destruct (host_of hd) as [|x h]; cbn in E.
    - injection E as <- _. discriminate.
    - injection E as <- _. intro Ex. apply Hh. now left. }
  split; [|split; [exact Hh|]].
  - unfold out_dir_of. apply path_join_relative. apply Hrel.
  - intro Hts. unfold log_path_of.
    destruct (path_join_relative (out_dir_of cfg w hd)
                (host_of hd ++ py "-" ++ now_stamp w ++ py ".log")
                (Hrel _)) as (sep & Hsep & E).
    rewrite E. f_equal.
    unfold path_join in E.
    rewrite (not_startswith_slash _ (Hrel _)) in E.
    assert (Hnt : (negb (truthy (out_dir_of cfg w hd))
                   || endswith (py "/") (out_dir_of cfg w hd))%bool = false).
    { unfold out_dir_of.
      destruct (path_join_relative (REPORTS_DIR cfg)
                  (host_of hd ++ py "-" ++ now_stamp w) (Hrel _))
        as (s0 & _ & ->).
      assert (Hlast : exists body c,
                REPORTS_DIR cfg ++ s0 ++ host_of hd ++ py "-" ++ now_stamp w
                = body ++ [c] /\ c <> 47%N).
      { destruct (now_stamp w) as [|x ts] eqn:Ets using rev_ind.
        - exists (REPORTS_DIR cfg ++ s0 ++ host_of hd), 45%N.
          split; [|discriminate]. rewrite app_nil_r.
          now rewrite <- !app_assoc.
        - exists (REPORTS_DIR cfg ++ s0 ++ host_of hd ++ py "-" ++ ts), x.
          split; [now rewrite <- !app_assoc|].
          intro Ex. apply Hts. apply in_or_app. right. now left. }
      destruct Hlast as (body & c & -> & Hc).
      rewrite endswith_slash_last by exact Hc.
      destruct body; reflexivity. }
    rewrite Hnt in E. apply app_inv_head in E.
    destruct Hsep as [->| ->]; [|reflexivity].
    exfalso. rewrite py_slash in E.
    assert (Hlen := f_equal (@List.length N) E).
    cbn [app List.length] in Hlen. lia.
Qed.

Lemma output_paths_under_reports_dir_witness :
  out_dir_of Sample.cfg Sample.world (py "/workspace/evtx/../etc/")
  = py "/workspace/reports/etc-20240101000000"
  /\ log_path_of Sample.cfg Sample.world (py "/workspace/evtx/../etc/")
     = out_dir_of Sample.cfg Sample.world (py "/workspace/evtx/../etc/")
       ++ py "/" ++ host_of (py "/workspace/evtx/../etc/") ++ py "-"
       ++ now_stamp Sample.world ++ py ".log".
Proof.
  destruct (output_paths_under_reports_dir Sample.cfg Sample.world
              (py "/workspace/evtx/../etc/")) as (_ & _ & H).
  split; [vm_compute; reflexivity|].
  apply H. vm_compute. intro Hin.
  repeat (destruct Hin as [Hin|Hin]; [discriminate Hin|]). exact Hin.
Defined.

(** ** Detection from json artifacts *)

Lemma lstrip_truthy s :
  truthy (lstrip s) = true <-> exists c, In c s /\ isspace c = false.
Proof.
  induction s as [|x s IH]; cbn [lstrip].
  - split; [discriminate|]. intros (c & [] & _).
  - destruct (isspace x) eqn:E.
    + rewrite IH. split.
      * intros (c & Hc & Hs). exists c. split; [now right|exact Hs].
      * intros (c & [<-|Hc] & Hs); [congruence|eauto].
    + split; [|reflexivity]. intros _. exists x. split; [now left|exact E].
Qed.

Lemma lstrip_keeps_nonspace s :
  (exists c, In c (lstrip s) /\ isspace c = false)
  <-> (exists c, In c s /\ isspace c = false).
Proof.
  induction s as [|x s IH]; cbn [lstrip]; [tauto|].
  destruct (isspace x) eqn:E; [|tauto].
  rewrite IH. split.
  - intros (c & Hc & Hs). exists c. split; [now right|exact Hs].
  - intros (c & [<-|Hc] & Hs); [congruence|eauto].
Qed.

(** [s.strip()] is non-empty exactly when [s] has a character that is not
    white space. *)
Lemma strip_truthy s :
  truthy (strip s) = true <-> exists c, In c s /\ isspace c = false.
Proof.
  unfold strip.
  assert (R : forall l : pystr, truthy (rev l) = truthy l).
  { intro l. destruct l as [|x l]; [reflexivity|].
    cbn [rev]. destruct (rev l); reflexivity. }
  rewrite R, lstrip_truthy. rewrite <- (lstrip_keeps_nonspace s). split.
  - intros (c & Hc & Hs). exists c. split; [|exact Hs]. now apply in_rev.
  - intros (c & Hc & Hs). exists c. split; [|exact Hs]. now apply in_rev in Hc.
Qed.






(** ** Reading the argument vector back *)

Lemma values_after_skip flag s rest :
  ~ In flag s -> values_after flag (s ++ rest) = values_after flag rest.
Proof.
  induction s as [|a s IH]; intro H; [reflexivity|].
  cbn [app values_after].
  assert (E : eqb a flag = false).
  { apply eqb_neq. intro Ea. apply H. now left. }
  rewrite E. cbn [app]. apply IH. intro Hin. apply H. now right.
Qed.

Lemma values_after_hit flag v rest :
  v <> flag ->
  values_after flag ([flag; v] ++ rest) = v :: values_after flag rest.
Proof.
  intro H. cbn [app values_after]. rewrite eqb_refl.
  apply eqb_neq in H. rewrite H. reflexivity.
Qed.

Lemma values_after_levels levels rest :
  (forall lv, In lv levels -> lv <> py "--level") ->
  values_after (py "--level")
    (flat_map (fun lv => [py "--level"; lv]) levels ++ rest)
  = levels ++ values_after (py "--level") rest.
Proof.
  induction levels as [|lv levels IH]; intro H; [reflexivity|].
  cbn [flat_map]. rewrite <- app_assoc.
  rewrite values_after_hit by (apply H; now left).
  cbn [app]. f_equal. apply IH. intros x Hx. apply H. now right.
Qed.

Section ReadBack.

Variables (cfg : Config) (f o r : pystr) (q : bool).

(** No value handed to the builder is spelled like one of its literals. *)
Hypothesis values_are_not_literals :
  forall v, In v (supplied_values cfg f o r) -> ~ In v fixed_literals.

Lemma supplied_ne v l :
  In v (supplied_values cfg f o r) -> In l fixed_literals -> v <> l.
Proof. intros Hv Hl E. subst. now apply (values_are_not_literals l). Qed.

Lemma literal_not_supplied l :
  In l fixed_literals -> ~ In l (supplied_values cfg f o r).
Proof. intros Hl Hv. now apply (values_are_not_literals l). Qed.

Lemma level_in_supplied lv :
  In lv (CHAINS_LEVELS cfg) -> In lv (supplied_values cfg f o r).
Proof.
  intro H. unfold supplied_values, config_values.
  apply in_or_app. right. apply in_or_app. now right.
Qed.

(** A literal other than "--level" does not occur among the level
    arguments. *)
Lemma notin_level_args l :
  In l fixed_literals -> l <> py "--level" -> ~ In l (level_args cfg).
Proof.
  intros Hl Hne Hin. apply in_level_args in Hin. destruct Hin as [E|Hin].
  - congruence.
  - apply (literal_not_supplied l Hl). now apply level_in_supplied.
Qed.

Lemma notin_format_args l :
  l <> py "--csv" -> l <> py "--json" -> l <> py "--log" ->
  ~ In l (format_args cfg).
Proof.
  intros H1 H2 H3. unfold format_args.
  destruct (eqb (CHAINS_FORMAT cfg) (py "json"));
    [|destruct (eqb (CHAINS_FORMAT cfg) (py "log"))];
    cbn [In]; intuition congruence.
Qed.

Lemma notin_time_args l :
  In l fixed_literals -> l <> py "--local" -> l <> py "--timezone" ->
  ~ In l (time_args cfg).
Proof.
  intros Hl H1 H2 Hin. apply time_args_origin in Hin.
  destruct Hin as [E|[E|E]]; try congruence.
  apply (literal_not_supplied l Hl). subst l.
  unfold supplied_values, config_values. cbn [In app]. auto 10.
Qed.

Lemma notin_quiet_args l : l <> py "-q" -> ~ In l (quiet_args cfg q).
Proof.
  intro H. unfold quiet_args.
  destruct (QUIET cfg && negb q)%bool; cbn [In]; intuition congruence.
Qed.

Lemma notin_pair l a v :
  In l fixed_literals -> l <> a -> In v (supplied_values cfg f o r) ->
  ~ In l [a; v].
Proof.
  intros Hl Hne Hv [E|[E|[]]]; [congruence|].
  apply (literal_not_supplied l Hl). now subst.
Qed.

Lemma notin_window_args l :
  In l fixed_literals -> l <> py "--from" -> l <> py "--to" ->
  ~ In l (window_args cfg).
Proof.
  intros Hl H1 H2. unfold window_args. intro Hin.
  apply in_app_or in Hin. destruct Hin as [Hin|Hin].
  - destruct (truthy (FROM cfg)); [|destruct Hin].
    revert Hin. apply notin_pair; auto.
    unfold supplied_values, config_values. cbn [In app]. auto 10.
  - destruct (truthy (TO cfg)); [|destruct Hin].
    revert Hin. apply notin_pair; auto.
    unfold supplied_values, config_values. cbn [In app]. auto 10.
Qed.

Lemma notin_opt_pair (b : bool) l a v :
  In l fixed_literals -> l <> a -> In v (supplied_values cfg f o r) ->
  ~ In l (if b then [a; v] else []).
Proof.
  intros Hl Hne Hv. destruct b; [now apply notin_pair|intros []].
Qed.

Lemma build_hunt_cmd_atoms :
  build_hunt_cmd_for_file cfg f o r q
  = [py "chainsaw"; py "hunt"]
    ++ [py "--mapping"; MAPPING_YML cfg]
    ++ [py "--output"; o]
    ++ [py "--sigma"; SIGMA_DIR cfg]
    ++ format_args cfg ++ level_args cfg ++ time_args cfg
    ++ [py "-r"; r]
    ++ (if truthy (FROM cfg) then [py "--from"; FROM cfg] else [])
    ++ (if truthy (TO cfg) then [py "--to"; TO cfg] else [])
    ++ quiet_args cfg q ++ [f].
Proof.
  rewrite build_hunt_cmd_shape. unfold head_args, window_args.
  cbn [app]. now rewrite <- !app_assoc.
Qed.

Lemma values_after_file flag :
  In flag fixed_literals -> values_after flag [f] = [].
Proof.
  intro H. cbn [values_after].
  destruct (eqb f flag); reflexivity.
Qed.

Ltac lit_ne := let E := fresh in intro E; vm_compute in E; discriminate E.
Ltac in_fixed := solve [unfold fixed_literals; cbn [In]; auto 20].
Ltac in_sup :=
  solve [unfold supplied_values, config_values; cbn [In app]; auto 20].
Ltac no_flag :=
  first
    [ apply notin_pair; [in_fixed|lit_ne|in_sup]
    | apply notin_opt_pair; [in_fixed|lit_ne|in_sup]
    | apply notin_format_args; lit_ne
    | apply notin_level_args; [in_fixed|lit_ne]
    | apply notin_time_args; [in_fixed|lit_ne|lit_ne]
    | apply notin_quiet_args; lit_ne
    | let E := fresh in
      cbn [In]; intros [E|[E|[]]]; vm_compute in E; discriminate E ].
Ltac read_step :=
  first
    [ rewrite values_after_hit by (apply supplied_ne; [in_sup|in_fixed])
    | rewrite values_after_skip by no_flag ].
Ltac read_back :=
  rewrite build_hunt_cmd_atoms; repeat read_step;
  rewrite ?values_after_file by in_fixed.

(** X8. The argument vector carries the configuration faithfully.  When no
    value handed to the builder is spelled like one of its literals, reading
    the vector back gives, after "--mapping", "--output", "--sigma" and "-r",
    exactly the mapping file, the output directory, the signature directory
    and the rules directory; after the occurrences of "--level" the
    configured levels in their order; after "--timezone", "--from" and "--to"
    the configured value when that option is in effect and nothing
    otherwise; and the input file is the last argument. *)
Theorem build_hunt_cmd_read_back :
  let cmd := build_hunt_cmd_for_file cfg f o r q in
  values_after (py "--mapping") cmd = [MAPPING_YML cfg]
  /\ values_after (py "--output") cmd = [o]
  /\ values_after (py "--sigma") cmd = [SIGMA_DIR cfg]
  /\ values_after (py "--level") cmd = CHAINS_LEVELS cfg
  /\ values_after (py "--timezone") cmd
     = (if LOCAL_TIME cfg then []
        else if truthy (TIMEZONE cfg) then [TIMEZONE cfg] else [])
  /\ values_after (py "-r") cmd = [r]
  /\ values_after (py "--from") cmd
     = (if truthy (FROM cfg) then [FROM cfg] else [])
  /\ values_after (py "--to") cmd
     = (if truthy (TO cfg) then [TO cfg] else [])
  /\ last cmd [] = f.
Proof.
  intro cmd. unfold cmd. repeat split.
  - read_back. reflexivity.
  - read_back. reflexivity.
  - read_back. reflexivity.
  - rewrite build_hunt_cmd_atoms. repeat read_step.
    unfold level_args. rewrite values_after_levels.
    + repeat read_step. rewrite values_after_file by in_fixed.
      apply app_nil_r.
    + intros lv Hlv. apply supplied_ne; [now apply level_in_supplied|in_fixed].
  - rewrite build_hunt_cmd_atoms. repeat read_step. unfold time_args.
    destruct (LOCAL_TIME cfg); [|destruct (truthy (TIMEZONE cfg))].
    + rewrite values_after_skip
        by (let E := fresh in cbn [In]; intros [E|[]]; vm_compute in E;
            discriminate E).
      repeat read_step. now rewrite values_after_file by in_fixed.
    + repeat read_step. now rewrite values_after_file by in_fixed.
    + rewrite app_nil_l. repeat read_step. now rewrite values_after_file by in_fixed.
  - read_back. reflexivity.
  - rewrite build_hunt_cmd_atoms. repeat read_step.
    destruct (truthy (FROM cfg)).
    + repeat read_step. now rewrite values_after_file by in_fixed.
    + rewrite app_nil_l. repeat read_step. now rewrite values_after_file by in_fixed.
  - rewrite build_hunt_cmd_atoms. repeat read_step.
    destruct (truthy (TO cfg)).
    + repeat read_step. now rewrite values_after_file by in_fixed.
    + rewrite app_nil_l. repeat read_step. now rewrite values_after_file by in_fixed.
  - apply last_build.
Qed.

End ReadBack.

Lemma build_hunt_cmd_read_back_witness :
  let cmd := build_hunt_cmd_for_file Sample.cfg_log (py "/h/a.evtx")
               (py "/out") (py "/rules") true in
  values_after (py "--level") cmd = [py "high"; py "critical"]
  /\ values_after (py "--timezone") cmd = [py "Asia/Tokyo"]
  /\ values_after (py "-r") cmd = [py "/rules"]
  /\ values_after (py "--from") cmd = [].
Proof.
  destruct (build_hunt_cmd_read_back Sample.cfg_log (py "/h/a.evtx")
              (py "/out") (py "/rules") true)
    as (_ & _ & _ & H4 & H5 & H6 & H7 & _).
  - intros v Hv Hl. vm_compute in Hv.
    repeat (destruct Hv as [Hv|Hv];
            [subst v; vm_compute in Hl;
             repeat (destruct Hl as [Hl|Hl]; [discriminate Hl|]); exact Hl|]).
    exact Hv.
  - repeat split; assumption.
Defined.

(** ** Format and quiet flags *)

Section Flags.

Variables (cfg : Config) (f o r : pystr) (q : bool).

Hypothesis values_are_not_literals :
  forall v, In v (supplied_values cfg f o r) -> ~ In v fixed_literals.

Lemma format_flag_in_fixed a :
  is_format_flag a = true -> In a fixed_literals.
Proof.
  unfold is_format_flag. rewrite !orb_true_iff, !eqb_eq.
  intros [[->| ->]| ->]; unfold fixed_literals; cbn [In]; auto 20.
Qed.

Lemma no_format_flag s :
  ~ In (py "--csv") s -> ~ In (py "--json") s -> ~ In (py "--log") s ->
  filter is_format_flag s = [].
Proof.
  intros H1 H2 H3. apply filter_none. intros a Ha.
  destruct (is_format_flag a) eqn:E; [|reflexivity]. exfalso.
  unfold is_format_flag in E. rewrite !orb_true_iff, !eqb_eq in E.
  destruct E as [[->| ->]| ->]; auto.
Qed.

Lemma no_format_flag_file : filter is_format_flag [f] = [].
Proof.
  cbn [filter]. destruct (is_format_flag f) eqn:E; [|reflexivity].
  exfalso. apply format_flag_in_fixed in E.
  apply (values_are_not_literals f); [|exact E].
  unfold supplied_values. cbn [In app]. auto.
Qed.

Ltac lit_ne := let E := fresh in intro E; vm_compute in E; discriminate E.
Ltac in_fixed := solve [unfold fixed_literals; cbn [In]; auto 20].
Ltac in_sup :=
  solve [unfold supplied_values, config_values; cbn [In app]; auto 20].
Ltac no_flag :=
  first
    [ apply (notin_pair cfg f o r values_are_not_literals);
      [in_fixed|lit_ne|in_sup]
    | apply (notin_opt_pair cfg f o r values_are_not_literals);
      [in_fixed|lit_ne|in_sup]
    | apply (notin_level_args cfg f o r values_are_not_literals);
      [in_fixed|lit_ne]
    | apply (notin_time_args cfg f o r values_are_not_literals);
      [in_fixed|lit_ne|lit_ne]
    | apply notin_quiet_args; lit_ne
    | apply notin_format_args; lit_ne
    | let E := fresh in
      cbn [In]; intros [E|[E|[]]]; vm_compute in E; discriminate E ].

(** X9. The builder puts exactly one output-format flag into the vector:
    "--json" or "--log" when CHAINS_FORMAT is that word, and "--csv" for
    "csv" as well as for every unrecognised or empty setting.  The quiet flag
    "-q" is in the vector exactly when QUIET is on and the caller does not
    force the output to be shown.  (No supplied value is spelled like a
    literal of the builder.) *)
Theorem build_hunt_cmd_format_and_quiet_flags :
  let cmd := build_hunt_cmd_for_file cfg f o r q in
  filter is_format_flag cmd
  = [if eqb (CHAINS_FORMAT cfg) (py "json") then py "--json"
     else if eqb (CHAINS_FORMAT cfg) (py "log") then py "--log"
     else py "--csv"]
  /\ (In (py "-q") cmd <-> QUIET cfg = true /\ q = false).
Proof.
  intro cmd. unfold cmd. split.
  - rewrite (build_hunt_cmd_atoms cfg f o r q). rewrite !filter_app.
    rewrite (no_format_flag [py "chainsaw"; py "hunt"]) by no_flag.
    rewrite (no_format_flag [py "--mapping"; MAPPING_YML cfg]) by no_flag.
    rewrite (no_format_flag [py "--output"; o]) by no_flag.
    rewrite (no_format_flag [py "--sigma"; SIGMA_DIR cfg]) by no_flag.
    rewrite (no_format_flag (level_args cfg)) by no_flag.
    rewrite (no_format_flag (time_args cfg)) by no_flag.
    rewrite (no_format_flag [py "-r"; r]) by no_flag.
    rewrite (no_format_flag (if truthy (FROM cfg) then _ else _)) by no_flag.
    rewrite (no_format_flag (if truthy (TO cfg) then _ else _)) by no_flag.
    rewrite (no_format_flag (quiet_args cfg q)) by no_flag.
    rewrite no_format_flag_file. cbn [app]. rewrite app_nil_r.
    unfold format_args.
    destruct (eqb (CHAINS_FORMAT cfg) (py "json"));
      [|destruct (eqb (CHAINS_FORMAT cfg) (py "log"))]; reflexivity.
  - rewrite (build_hunt_cmd_atoms cfg f o r q). rewrite !in_app_iff.
    assert (N1 : ~ In (py "-q") [py "chainsaw"; py "hunt"]) by no_flag.
    assert (N2 : ~ In (py "-q") [py "--mapping"; MAPPING_YML cfg]) by no_flag.
    assert (N3 : ~ In (py "-q") [py "--output"; o]) by no_flag.
    assert (N4 : ~ In (py "-q") [py "--sigma"; SIGMA_DIR cfg]) by no_flag.
    assert (N5 : ~ In (py "-q") (format_args cfg)) by no_flag.
    assert (N6 : ~ In (py "-q") (level_args cfg)) by no_flag.
    assert (N7 : ~ In (py "-q") (time_args cfg)) by no_flag.
    assert (N8 : ~ In (py "-q") [py "-r"; r]) by no_flag.
    assert (N9 : ~ In (py "-q")
                   (if truthy (FROM cfg) then [py "--from"; FROM cfg] else []))
      by no_flag.
    assert (N10 : ~ In (py "-q")
                    (if truthy (TO cfg) then [py "--to"; TO cfg] else []))
      by no_flag.
    assert (N11 : ~ In (py "-q") [f]).
    { intros [E|[]]. apply (values_are_not_literals f).
      - unfold supplied_values. cbn [In app]. auto.
      - rewrite E. unfold fixed_literals. cbn [In]. auto 20. }
    assert (Q : In (py "-q") (quiet_args cfg q) <-> QUIET cfg = true /\ q = false).
    { unfold quiet_args. destruct (QUIET cfg), q; cbn [andb negb In];
        intuition discriminate. }
    tauto.
Qed.

End Flags.

Lemma build_hunt_cmd_format_and_quiet_flags_witness :
  let cmd := build_hunt_cmd_for_file More.cfg_json (py "/h/a.evtx")
               (py "/out") (py "/rules") false in
  filter is_format_flag cmd = [py "--json"] /\ In (py "-q") cmd.
Proof.
  destruct (build_hunt_cmd_format_and_quiet_flags More.cfg_json (py "/h/a.evtx")
              (py "/out") (py "/rules") false) as [H1 H2].
  - intros v Hv Hl. vm_compute in Hv.
    repeat (destruct Hv as [Hv|Hv];
            [subst v; vm_compute in Hl;
             repeat (destruct Hl as [Hl|Hl]; [discriminate Hl|]); exact Hl|]).
    exact Hv.
  - split; [exact H1|]. apply H2. split; reflexivity.
Defined.

(** ** The orchestrator *)

Lemma collect_returns cfg mw order :
  (forall hd, In hd order -> exists r, future_result cfg mw hd = Ret r) ->
  forall acc tr,
  exists results,
    collect cfg mw order acc tr
    = (tr ++ map (fun r => EPrint (status_line r)) results, Ret (acc ++ results))
    /\ Forall2 (fun hd r => future_result cfg mw hd = Ret r) order results.
Proof.
  induction order as [|hd order IH]; intros Hall acc tr.
  - exists []. cbn. rewrite !app_nil_r. split; [reflexivity|constructor].
  - destruct (Hall hd (or_introl eq_refl)) as [r Hr].
    destruct (IH (fun h H => Hall h (or_intror H)) (acc ++ [r])
                 (tr ++ [EPrint (status_line r)])) as (results & Hc & HF).
    exists (r :: results). split; [|constructor; auto].
    cbn [collect]. unfold bind at 1. rewrite Hr. unfold bind at 1.
    unfold print, emit. fold (status_line r).
    rewrite Hc, <- !app_assoc. reflexivity.
Qed.




(** What the notification step does, case by case. *)
Lemma notify_eq cfg mw results tr :
  let found := filter detected results in
  notify cfg mw results tr
  = match found with
    | [] =>
        (tr ++ [EPrint (py "[INFO] 検出はありませんでした。メールは送信されません。")],
         Ret tt)
    | _ =>
        if mail_configured cfg then
          match smtp_answer mw with
          | Ok _ =>
              (tr ++ [ESendMail (subject_of cfg found) (body_of cfg found);
                      ESmtp (subject_of cfg found) (body_of cfg found)],
               Ret tt)
          | Fails msg =>
              (tr ++ [ESendMail (subject_of cfg found) (body_of cfg found)],
               Raise (Exception msg))
          end
        else
          (tr ++ [ESendMail (subject_of cfg found) (body_of cfg found);
                  EPrintErr (py "[WARN] SMTP/MAIL の設定が不十分のためメールは送信されません。")],
           Ret tt)
    end.
Proof.
  intro found. unfold notify. fold found. destruct found as [|r0 rest].
  - reflexivity.
  - unfold send_mail, mail_configured, print_err, bind, emit, lift.
    destruct (truthy (SMTP_HOST cfg) && truthy (MAIL_FROM cfg)
              && match MAIL_TO cfg with [] => false | _ => true end)%bool;
      cbn [negb].
    + destruct (smtp_answer mw) as [[]|msg]; [|reflexivity].
      now rewrite <- app_assoc.
    + now rewrite <- app_assoc.
Qed.

Lemma main_eq cfg mw tr :
  host_dirs_of cfg mw <> [] ->
  main cfg mw tr
  = bind (collect cfg mw (as_completed mw (host_dirs_of cfg mw)) [])
         (notify cfg mw) tr.
Proof.
  intro H. unfold main. destruct (host_dirs_of cfg mw); [congruence|reflexivity].
Qed.

Lemma smtp_of_app a b : smtp_of (a ++ b) = smtp_of a ++ smtp_of b.
Proof.
  induction a as [|e a IH]; [reflexivity|].
  destruct e; cbn [app smtp_of]; rewrite IH; reflexivity.
Qed.

Lemma smtp_of_prints (l : list ScanResult) :
  smtp_of (map (fun r => EPrint (status_line r)) l) = [].
Proof. induction l; [reflexivity|exact IHl]. Qed.

Lemma mails_of_prints (l : list ScanResult) :
  mails_of (map (fun r => EPrint (status_line r)) l) = [].
Proof. induction l; [reflexivity|exact IHl]. Qed.



Lemma collect_ret_inv cfg mw order :
  forall acc tr tr' results,
  collect cfg mw order acc tr = (tr', Ret results) ->
  exists rs,
    results = acc ++ rs
    /\ tr' = tr ++ map (fun r => EPrint (status_line r)) rs
    /\ Forall2 (fun hd r => future_result cfg mw hd = Ret r) order rs.
Proof.
  induction order as [|hd order IH]; intros acc tr tr' results; cbn [collect].
  - intro H. injection H as <- <-. exists [].
    rewrite !app_nil_r. repeat split. constructor.
  - unfold bind at 1. destruct (future_result cfg mw hd) as [r|e] eqn:E;
      [|discriminate].
    unfold bind at 1. unfold print, emit. fold (status_line r).
    intro H. apply IH in H. destruct H as (rs & -> & -> & HF).
    exists (r :: rs). rewrite <- !app_assoc. repeat split.
    constructor; auto.
Qed.

Lemma main_after_collect cfg mw tr1 results :
  host_dirs_of cfg mw <> [] ->
  collect cfg mw (as_completed mw (host_dirs_of cfg mw)) [] [] = (tr1, Ret results) ->
  main cfg mw [] = notify cfg mw results tr1
  /\ tr1 = map (fun r => EPrint (status_line r)) results.
Proof.
  intros Hne Hc. split.
  - rewrite main_eq by assumption. unfold bind. now rewrite Hc.
  - apply collect_ret_inv in Hc. destruct Hc as (rs & -> & -> & _).
    reflexivity.
Qed.

(** X11. With incomplete mail settings (no SMTP host, no sender or no
    recipient) the run never fails at the notification step and nothing is
    handed to an SMTP server, whatever the server would have answered: once
    the hosts have delivered their results [main] returns normally, and when
    some host is detected the Notifier was invoked once and only printed a
    warning. *)
Theorem unconfigured_mail_is_skipped cfg mw tr1 results :
  mail_configured cfg = false ->
  host_dirs_of cfg mw <> [] ->
  collect cfg mw (as_completed mw (host_dirs_of cfg mw)) [] [] = (tr1, Ret results) ->
  exists tr,
    main cfg mw [] = (tr, Ret tt)
    /\ smtp_of tr = []
    /\ ((exists r, In r results /\ detected r = true) ->
        exists subject body warning,
          tr = tr1 ++ [ESendMail subject body; EPrintErr warning]).
Proof.
  intros Hcfg Hne Hc.
  destruct (main_after_collect cfg mw tr1 results Hne Hc) as [Hm Ht].
  rewrite Hm, notify_eq, Hcfg.
  destruct (filter detected results) as [|r0 rest] eqn:Ef.
  - eexists. split; [reflexivity|]. split.
    + rewrite smtp_of_app, Ht, smtp_of_prints. reflexivity.
    + intros (r & Hin & Hd). exfalso.
      assert (H : In r (filter detected results)) by (apply filter_In; auto).
      rewrite Ef in H. destruct H.
  - eexists. split; [reflexivity|]. split.
    + rewrite smtp_of_app, Ht, smtp_of_prints. reflexivity.
    + intros _. eauto.
Qed.


Lemma unconfigured_mail_is_skipped_witness :
  exists tr,
    main More.cfg_no_mail More.mw_smtp_down [] = (tr, Ret tt)
    /\ smtp_of tr = []
    /\ mails_of tr <> [].
Proof.
  destruct (unconfigured_mail_is_skipped More.cfg_no_mail More.mw_smtp_down
              (map (fun r => EPrint (status_line r)) More.two_results)
              More.two_results)
    as (tr & Hm & Hs & Hw).
  - reflexivity.
  - intro H. vm_compute in H. discriminate H.
  - vm_compute. reflexivity.
  - exists tr. split; [exact Hm|]. split; [exact Hs|].
    destruct Hw as (subject & body & warning & ->).
    + eexists. split; [left; reflexivity|reflexivity].
    + rewrite mails_of_app, mails_of_prints. cbn. discriminate.
Defined.


(** ** Start-up checks *)





(** ** Settings read from the environment *)

Lemma lstrip_split s :
  exists pre, s = pre ++ lstrip s /\ blank pre.
Proof.
  induction s as [|c s IH]; cbn [lstrip].
  - exists []. split; [reflexivity|constructor].
  - destruct (isspace c) eqn:E.
    + destruct IH as (pre & Hs & Hb). exists (c :: pre). split.
      * cbn [app]. now rewrite <- Hs.
      * now constructor.
    + exists []. split; [reflexivity|constructor].
Qed.

Lemma lstrip_head s c t : lstrip s = c :: t -> isspace c = false.
Proof.
  induction s as [|x s IH]; cbn [lstrip]; [discriminate|].
  destruct (isspace x) eqn:E; [exact IH|].
  intro H. injection H as <- _. exact E.
Qed.

Lemma lstrip_blank_app pre s : blank pre -> lstrip (pre ++ s) = lstrip s.
Proof.
  induction 1 as [|c pre Hc _ IH]; [reflexivity|].
  cbn [app lstrip]. now rewrite Hc.
Qed.

Lemma lstrip_fixed s :
  (forall c t, s = c :: t -> isspace c = false) -> lstrip s = s.
Proof.
  intro H. destruct s as [|c t]; [reflexivity|].
  cbn [lstrip]. now rewrite (H c t eq_refl).
Qed.

Lemma blank_rev s : blank s -> blank (rev s).
Proof.
  unfold blank. rewrite !Forall_forall. intros H c Hc.
  apply H. now apply in_rev.
Qed.

(** [strip] removes a blank prefix and a blank suffix, and what it leaves
    has neither. *)
Lemma strip_split s :
  exists pre post,
    s = pre ++ strip s ++ post /\ blank pre /\ blank post /\ stripped (strip s).
Proof.
  unfold strip.
  destruct (lstrip_split s) as (pre & Hs & Hpre).
  destruct (lstrip_split (rev (lstrip s))) as (post' & Hr & Hpost).
  set (t := lstrip s) in *. set (u := lstrip (rev t)) in *.
  assert (Ht : t = rev u ++ rev post').
  { rewrite <- rev_app_distr, <- Hr. now rewrite rev_involutive. }
  exists pre, (rev post'). split; [|split; [|split]].
  - now rewrite <- Ht.
  - exact Hpre.
  - now apply blank_rev.
  - split.
    + intros c x E. rewrite E in Ht.
      apply (lstrip_head s c (x ++ rev post')). fold t. exact Ht.
    + intros c x E. apply (lstrip_head (rev t) c (rev x)). fold u.
      rewrite <- (rev_involutive u), E, rev_app_distr. reflexivity.
Qed.

Lemma strip_padded pre core post :
  blank pre -> blank post -> stripped core ->
  strip (pre ++ core ++ post) = core.
Proof.
  intros Hpre Hpost [Hh Ht]. unfold strip.
  rewrite lstrip_blank_app by assumption.
  destruct core as [|c core'] eqn:Ec.
  - cbn [app].
    destruct (lstrip_split post) as (p & Hp & Hb).
    assert (L : lstrip post = []).
    { clear - Hpost. induction Hpost as [|x l Hx _ IH]; [reflexivity|].
      cbn [lstrip]. now rewrite Hx. }
    rewrite L. cbn [rev lstrip]. reflexivity.
  - rewrite <- Ec in *.
    rewrite (lstrip_fixed (core ++ post)).
    + rewrite rev_app_distr, lstrip_blank_app by now apply blank_rev.
      rewrite lstrip_fixed; [apply rev_involutive|].
      intros x t E. apply (Ht x (rev t)).
      rewrite <- (rev_involutive core), E. reflexivity.
    + intros x t E. subst core. cbn [app] in E. injection E as <- _.
      now apply (Hh c core').
Qed.

Lemma strip_stripped s : stripped s -> strip s = s.
Proof.
  intro H.
  pose proof (strip_padded [] s [] (Forall_nil _) (Forall_nil _) H) as E.
  cbn [app] in E. now rewrite app_nil_r in E.
Qed.

Lemma split_char_cons c s : split_char c s <> [].
Proof.
  destruct s as [|x t]; cbn [split_char]; [discriminate|].
  destruct (N.eqb x c); [discriminate|].
  destruct (split_char c t); discriminate.
Qed.

(** Splitting and joining with the same separator are inverse to each
    other. *)
Lemma join_split_char c s : join [c] (split_char c s) = s.
Proof.
  induction s as [|x t IH]; [reflexivity|].
  cbn [split_char]. destruct (N.eqb x c) eqn:E.
  - apply N.eqb_eq in E. subst x.
    destruct (split_char c t) as [|h rest] eqn:Es.
    + now apply split_char_cons in Es.
    + cbn [join app]. now rewrite <- IH.
  - destruct (split_char c t) as [|h rest] eqn:Es.
    + now apply split_char_cons in Es.
    + rewrite <- IH. destruct rest; reflexivity.
Qed.

Lemma split_char_free c s : ~ In c s -> split_char c s = [s].
Proof.
  induction s as [|x t IH]; intro H; [reflexivity|].
  cbn [split_char].
  assert (E : N.eqb x c = false).
  { apply N.eqb_neq. intro Ex. apply H. now left. }
  rewrite E, IH; [reflexivity|]. intro Hin. apply H. now right.
Qed.

Lemma split_char_app c a b :
  ~ In c a -> split_char c (a ++ c :: b) = a :: split_char c b.
Proof.
  induction a as [|x a IH]; intro H.
  - cbn [app split_char]. now rewrite N.eqb_refl.
  - cbn [app split_char].
    assert (E : N.eqb x c = false).
    { apply N.eqb_neq. intro Ex. apply H. now left. }
    rewrite E, IH; [reflexivity|]. intro Hin. apply H. now right.
Qed.

Lemma split_char_join c l :
  l <> [] -> (forall x, In x l -> ~ In c x) ->
  split_char c (join [c] l) = l.
Proof.
  induction l as [|a l IH]; intros Hne Hfree; [congruence|].
  destruct l as [|b l].
  - cbn [join]. apply split_char_free. apply Hfree. now left.
  - change (join [c] (a :: b :: l)) with (a ++ [c] ++ join [c] (b :: l)).
    cbn [app]. rewrite split_char_app by (apply Hfree; now left).
    f_equal. apply IH; [discriminate|]. intros x Hx. apply Hfree. now right.
Qed.

Lemma split_char_parts c s x : In x (split_char c s) -> ~ In c x.
Proof.
  revert x. induction s as [|y t IH]; intro x; cbn [split_char].
  - intros [<-|[]] [].
  - destruct (N.eqb y c) eqn:E.
    + intros [<-|H]; [intros []|now apply IH].
    + destruct (split_char c t) as [|h rest] eqn:Es.
      * intros [<-|[]] [Ey|[]]. apply N.eqb_neq in E. congruence.
      * intros [<-|H].
        -- intros [Ey|Hh]; [apply N.eqb_neq in E; congruence|].
           apply (IH h); [now left|exact Hh].
        -- apply IH. now right.
Qed.

Lemma filter_all {A} (f : A -> bool) l :
  (forall a, In a l -> f a = true) -> filter f l = l.
Proof.
  induction l as [|a l IH]; intro H; [reflexivity|].
  cbn [filter]. rewrite (H a (or_introl eq_refl)). f_equal.
  apply IH. intros b Hb. apply H. now right.
Qed.

Lemma map_fixed {A} (f : A -> A) l :
  (forall a, In a l -> f a = a) -> map f l = l.
Proof.
  induction l as [|a l IH]; intro H; [reflexivity|].
  cbn [map]. rewrite (H a (or_introl eq_refl)). f_equal.
  apply IH. intros b Hb. apply H. now right.
Qed.

Lemma strip_no_new_char c s : In c (strip s) -> In c s.
Proof.
  intro H. destruct (strip_split s) as (pre & post & E & _).
  rewrite E. apply in_or_app. right. apply in_or_app. now left.
Qed.

(** X14. A comma-separated setting (CHAINS_LEVELS, EXTENSIONS, MAIL_TO) is
    read as the list of its non-blank items: every item is non-empty, free
    of commas and without leading or trailing white space; and the reading
    is inverse to joining with commas, so a list of such items written as
    "a,b,c" is read back unchanged, while an empty or blank value gives the
    empty list. *)
Theorem env_list_items v l :
  (forall x, In x (env_list v) ->
     x <> [] /\ ~ In 44%N x /\ stripped x)
  /\ ((forall x, In x l -> x <> [] /\ ~ In 44%N x /\ stripped x) ->
      env_list (join (py ",") l) = l)
  /\ (blank v -> env_list v = []).
Proof.
  split; [|split].
  - intros x Hx. unfold env_list in Hx. apply filter_In in Hx.
    destruct Hx as [Hx Ht]. apply in_map_iff in Hx.
    destruct Hx as (y & <- & Hy). split; [|split].
    + intro E. rewrite E in Ht. discriminate Ht.
    + intro Hc. apply strip_no_new_char in Hc.
      now apply (split_char_parts 44%N v y).
    + destruct (strip_split y) as (_ & _ & _ & _ & _ & H). exact H.
  - intro H. unfold env_list. change (py ",") with [44%N].
    destruct l as [|a l'] eqn:El; [reflexivity|]. rewrite <- El in *.
    rewrite split_char_join.
    + rewrite map_fixed.
      * apply filter_all. intros x Hx. destruct (H x Hx) as (Hne & _).
        destruct x; [congruence|reflexivity].
      * intros x Hx. apply strip_stripped. now apply H.
    + rewrite El. discriminate.
    + intros x Hx. now apply H.
  - intro Hb. unfold env_list.
    assert (Hfree : ~ In 44%N v).
    { intro Hc. unfold blank in Hb. rewrite Forall_forall in Hb.
      specialize (Hb _ Hc). vm_compute in Hb. discriminate Hb. }
    rewrite split_char_free by exact Hfree. cbn [map filter].
    assert (E : strip v = []).
    { pose proof (strip_padded v [] [] Hb (Forall_nil _)) as P.
      rewrite app_nil_r in P. apply P. split; intros c t Hc.
      - discriminate Hc.
      - destruct t; discriminate Hc. }
    now rewrite E.
Qed.

Lemma env_list_items_witness :
  env_list (join (py ",") [py "high"; py "critical"])
  = [py "high"; py "critical"]
  /\ env_list (py " high , ,critical,") = [py "high"; py "critical"].
Proof.
  destruct (env_list_items [] [py "high"; py "critical"]) as (_ & H & _).
  split; [|vm_compute; reflexivity].
  apply H. intros x [<-|[<-|[]]]; (split; [discriminate|split]).
  - vm_compute. intro Hin.
    repeat (destruct Hin as [Hin|Hin]; [discriminate Hin|]). exact Hin.
  - split; intros c t E.
    + vm_compute in E. injection E as <- _. reflexivity.
    + assert (L : last (py "high") 0%N = c) by (rewrite E; apply last_last).
      vm_compute in L. now subst c.
  - vm_compute. intro Hin.
    repeat (destruct Hin as [Hin|Hin]; [discriminate Hin|]). exact Hin.
  - split; intros c t E.
    + vm_compute in E. injection E as <- _. reflexivity.
    + assert (L : last (py "critical") 0%N = c) by (rewrite E; apply last_last).
      vm_compute in L. now subst c.
Defined.

Lemma space_not_in_true c :
  isspace c = true -> ~ In (lower_char c) (py "true").
Proof.
  intros Hs Hin.
  assert (Hl : lower_char c = c).
  { unfold lower_char.
    destruct (N.leb 65 c && N.leb c 90)%bool eqn:E; [|reflexivity].
    exfalso. apply andb_true_iff in E. destruct E as [E1 E2].
    apply N.leb_le in E1, E2. unfold isspace in Hs.
    rewrite !orb_true_iff, !andb_true_iff, !N.leb_le, !N.eqb_eq in Hs. lia. }
  rewrite Hl in Hin. change (py "true") with [116%N; 114%N; 117%N; 101%N] in Hin.
  unfold isspace in Hs.
  rewrite !orb_true_iff, !andb_true_iff, !N.leb_le, !N.eqb_eq in Hs.
  cbn [In] in Hin. lia.
Qed.

Lemma lower_true_stripped core : lower core = py "true" -> stripped core.
Proof.
  intro H.
  assert (Hall : forall c, In c core -> isspace c = false).
  { intros c Hc. destruct (isspace c) eqn:E; [|reflexivity]. exfalso.
    apply (space_not_in_true c E). rewrite <- H. unfold lower.
    now apply in_map. }
  split; intros c t E; apply Hall; rewrite E.
  - now left.
  - apply in_or_app. right. now left.
Qed.

(** X15. An on/off setting (QUIET, LOCAL_TIME, SMTP_TLS) is on exactly when
    its value is the word "true" in any mix of upper and lower case,
    possibly surrounded by white space; every other value switches it off,
    and a setting whose default is "true" is on when the variable is not
    set. *)
Theorem env_flag_true (env : Env) name v :
  (env_flag v = true <->
   exists pre core post,
     v = pre ++ core ++ post /\ blank pre /\ blank post
     /\ lower core = py "true")
  /\ (env name = None -> env_flag (getenv env name (py "true")) = true)
  /\ (env name = Some v ->
      env_flag (getenv env name (py "true")) = env_flag v).
Proof.
  split; [|split].
  - unfold env_flag. rewrite eqb_eq. split.
    + intro H. destruct (strip_split v) as (pre & post & E & Hpre & Hpost & _).
      exists pre, (strip v), post. auto.
    + intros (pre & core & post & -> & Hpre & Hpost & Hl).
      rewrite strip_padded; auto. now apply lower_true_stripped.
  - intro H. unfold getenv. rewrite H. reflexivity.
  - intro H. unfold getenv. now rewrite H.
Qed.

Lemma env_flag_true_witness :
  env_flag (py "  True ") = true
  /\ env_flag (getenv (fun _ => None) (py "QUIET") (py "true")) = true
  /\ env_flag (py "yes") = false.
Proof.
  destruct (env_flag_true (fun _ => None) (py "QUIET") (py "  True "))
    as (H1 & H2 & _).
  split; [|split].
  - apply H1. exists (py "  "), (py "True"), (py " ").
    split; [reflexivity|]. split; [|split].
    + repeat constructor.
    + repeat constructor.
    + reflexivity.
  - apply H2. reflexivity.
  - reflexivity.
Defined.

(** ** Lines of a text *)

Lemma splitlines_from_line cur l rest :
  break_free l ->
  splitlines_from cur (l ++ 10%N :: rest)
  = (rev cur ++ l) :: splitlines_from [] rest.
Proof.
  revert cur. induction l as [|c l IH]; intros cur H.
  - cbn [app splitlines_from]. now rewrite app_nil_r.
  - assert (Hc : is_linebreak c = false) by (apply H; now left).
    assert (Hcr : N.eqb c 13 = false).
    { destruct (N.eqb c 13) eqn:E; [|reflexivity].
      apply N.eqb_eq in E. subst c. discriminate Hc. }
    cbn [app splitlines_from]. rewrite Hcr, Hc.
    rewrite IH by (intros x Hx; apply H; now right).
    cbn [rev]. now rewrite <- app_assoc.
Qed.

Lemma splitlines_from_end cur l :
  break_free l ->
  splitlines_from cur l
  = match rev cur ++ l with [] => [] | _ => [rev cur ++ l] end.
Proof.
  revert cur. induction l as [|c l IH]; intros cur H.
  - cbn [splitlines_from]. rewrite app_nil_r.
    destruct cur as [|x cur]; [reflexivity|].
    cbn [rev]. destruct (rev cur); reflexivity.
  - assert (Hc : is_linebreak c = false) by (apply H; now left).
    assert (Hcr : N.eqb c 13 = false).
    { destruct (N.eqb c 13) eqn:E; [|reflexivity].
      apply N.eqb_eq in E. subst c. discriminate Hc. }
    cbn [splitlines_from]. rewrite Hcr, Hc.
    rewrite IH by (intros x Hx; apply H; now right).
    cbn [rev]. now rewrite <- app_assoc.
Qed.

Lemma rows_join lines :
  Forall break_free lines ->
  rows (join nl lines) = filter (fun ln => truthy (strip ln)) lines.
Proof.
  unfold rows, splitlines.
  induction 1 as [|l lines Hl _ IH]; [reflexivity|].
  destruct lines as [|l2 rest].
  - cbn [join]. rewrite splitlines_from_end by exact Hl. cbn [rev app].
    destruct l; reflexivity.
  - change (join nl (l :: l2 :: rest)) with (l ++ nl ++ join nl (l2 :: rest)).
    unfold nl at 1. cbn [app].
    rewrite splitlines_from_line by exact Hl. cbn [rev app filter].
    now rewrite IH.
Qed.

(** X16. For a text made of lines separated by newlines (the lines
    themselves holding no line boundary), the rows that the csv check counts
    are exactly the lines with a character that is not white space, in
    order; so a csv whose first line is a non-blank header counts as a
    detection exactly when some later line is non-blank. *)
Theorem csv_rows_are_non_blank_lines name header data :
  Forall break_free (header :: data) ->
  rows (join nl (header :: data))
  = filter (fun ln => truthy (strip ln)) (header :: data)
  /\ Forall non_blank (rows (join nl (header :: data)))
  /\ (non_blank header ->
      (csv_hit {| a_name := name; a_read := Ok (join nl (header :: data)) |}
       = true
       <-> exists d, In d data /\ non_blank d)).
Proof.
  intro H. pose proof (rows_join (header :: data) H) as E.
  split; [exact E|]. split.
  - rewrite E. apply Forall_forall. intros l Hl. apply filter_In in Hl.
    destruct Hl as [_ Hl]. now apply strip_truthy.
  - intro Hh. unfold csv_hit. cbn [a_read]. rewrite E. cbn [filter].
    apply strip_truthy in Hh. rewrite Hh. cbn [List.length].
    rewrite Nat.ltb_lt. split.
    + intro Hlen.
      destruct (filter (fun ln => truthy (strip ln)) data) as [|d rest] eqn:Ef;
        [cbn in Hlen; lia|].
      assert (Hd : In d (filter (fun ln => truthy (strip ln)) data))
        by (rewrite Ef; now left).
      apply filter_In in Hd. destruct Hd as [Hin Ht].
      exists d. split; [exact Hin|]. now apply strip_truthy.
    + intros (d & Hin & Hd). apply strip_truthy in Hd.
      assert (Hf : In d (filter (fun ln => truthy (strip ln)) data))
        by (apply filter_In; auto).
      destruct (filter (fun ln => truthy (strip ln)) data); [destruct Hf|].
      cbn [List.length]. lia.
Qed.

Lemma csv_rows_are_non_blank_lines_witness :
  rows (join nl [py "timestamp,detections"; py "   "; []; py "2024,rule"])
  = [py "timestamp,detections"; py "2024,rule"]
  /\ csv_hit {| a_name := py "a.csv";
                a_read := Ok (join nl [py "timestamp,detections"; py "   "; []]) |}
     = false.
Proof.
  destruct (csv_rows_are_non_blank_lines (py "a.csv")
              (py "timestamp,detections") [py "   "; []; py "2024,rule"])
    as (E & _ & _).
  - repeat constructor; intros c Hc; vm_compute in Hc;
      repeat (destruct Hc as [Hc|Hc]; [subst c; reflexivity|]);
      destruct Hc.
  - split; [rewrite E; vm_compute; reflexivity|vm_compute; reflexivity].
Defined.
